(** * The recipe review workflow: a model of [airtable_client.py] and [app.py]

    The record store adapter ([airtable_client.py]) and the route handlers of the
    workflow ([app.py]: [add_recipe], [edit_rejected_recipe], [assign_recipe],
    [review_recipe]) are embedded as functions in a small state-and-exception monad
    over the two tables the workflow writes, Users and Recipes.

    - An Airtable table is a finite map from record identifiers to field records.
    - Python exceptions are a result type; a store change made before an exception
      is raised stays made, as in Python.
    - Every write leaves an entry in a log, so that the order of the side effects of
      one operation can be stated.
    - A price is an IEEE 754 binary64 number, the Python [float].
    - The identity of a request is what the handlers read of the Flask session. *)

From Stdlib Require Import Floats ZArith Ascii String.
From stdpp Require Import gmap strings list fin_maps stringmap.

Local Open Scope string_scope.
Local Open Scope list_scope.
Local Open Scope Z_scope.

(** ** Python's [float(str)]

    A Python [str] is written here as its UTF-8 encoding, as a string literal of
    this file is. [float] first turns every code point from 127 up into ASCII: a
    Unicode white space becomes a space, a Unicode decimal digit its ASCII digit,
    anything else a character no number contains. It then strips the ASCII white
    space (tab to carriage return, and the space) at both ends, reads an optional
    sign and then either [inf], [infinity], [nan] (in any case) or a decimal
    literal with an optional exponent, digits optionally separated by single
    underscores. The result is the binary64 number nearest to the decimal value
    (ties to even). *)
Module PyFloat.

(** [Py_ISSPACE]: the bytes 28 to 31, white space for [str.isspace], are not
    stripped. *)
Definition is_space (c : ascii) : bool :=
  let n := Z.of_nat (nat_of_ascii c) in
  ((9 <=? n) && (n <=? 13)) || (n =? 32).

(** The code points of a UTF-8 byte sequence; -1 for bytes that encode none,
    which no [str] gives. *)
Definition continuation (b : Z) : bool := (128 <=? b) && (b <? 192).

Fixpoint utf8_decode (l : list Z) : list Z :=
  match l with
  | [] => []
  | b :: l1 =>
      if b <? 128 then b :: utf8_decode l1
      else if (194 <=? b) && (b <? 224) then
        match l1 with
        | c1 :: l2 =>
            if continuation c1 then (b - 192) * 64 + (c1 - 128) :: utf8_decode l2
            else -1 :: utf8_decode l1
        | [] => [-1]
        end
      else if (224 <=? b) && (b <? 240) then
        match l1 with
        | c1 :: c2 :: l3 =>
            if continuation c1 && continuation c2 then
              (b - 224) * 4096 + (c1 - 128) * 64 + (c2 - 128) :: utf8_decode l3
            else -1 :: utf8_decode l1
        | _ => [-1]
        end
      else if (240 <=? b) && (b <? 245) then
        match l1 with
        | c1 :: c2 :: c3 :: l4 =>
            if continuation c1 && continuation c2 && continuation c3 then
              (b - 240) * 262144 + (c1 - 128) * 4096 + (c2 - 128) * 64 + (c3 - 128)
              :: utf8_decode l4
            else -1 :: utf8_decode l1
        | _ => [-1]
        end
      else -1 :: utf8_decode l1
  end.

(** [Py_UNICODE_ISSPACE] from 127 up. *)
Definition unicode_space (cp : Z) : bool :=
  (cp =? 133) || (cp =? 160) || (cp =? 5760)
  || ((8192 <=? cp) && (cp <=? 8202))
  || (cp =? 8232) || (cp =? 8233) || (cp =? 8239) || (cp =? 8287) || (cp =? 12288).

(** The digit zero of every script with decimal digits above ASCII (Unicode
    14.0, the table of CPython 3.11); the nine other digits follow their zero. *)
Definition decimal_zeros : list Z :=
  [1632; 1776; 1984; 2406; 2534; 2662; 2790; 2918; 3046; 3174; 3302; 3430; 3558;
   3664; 3792; 3872; 4160; 4240; 6112; 6160; 6470; 6608; 6784; 6800; 6992; 7088;
   7232; 7248; 42528; 43216; 43264; 43472; 43504; 43600; 44016; 65296; 66720;
   68912; 69734; 69872; 69942; 70096; 70384; 70736; 70864; 71248; 71360; 71472;
   71904; 72016; 72784; 73040; 73120; 92768; 92864; 93008; 120782; 120792;
   120802; 120812; 120822; 123200; 123632; 125264; 130032].

(** [Py_UNICODE_TODECIMAL] from 127 up. *)
Definition unicode_decimal (cp : Z) : option Z :=
  match List.find (λ zero, (zero <=? cp) && (cp <? zero + 10)) decimal_zeros with
  | Some zero => Some (cp - zero)
  | None => None
  end.

(** [_PyUnicode_TransformDecimalAndSpaceToASCII], code point by code point. *)
Definition to_ascii (cp : Z) : ascii :=
  if (0 <=? cp) && (cp <? 127) then ascii_of_nat (Z.to_nat cp)
  else if unicode_space cp then " "%char
  else match unicode_decimal cp with
       | Some d => ascii_of_nat (Z.to_nat (48 + d))
       | None => "?"%char
       end.

Definition digit_of (c : ascii) : option Z :=
  let n := Z.of_nat (nat_of_ascii c) in
  if (48 <=? n) && (n <=? 57) then Some (n - 48) else None.

Definition lower (c : ascii) : ascii :=
  let n := nat_of_ascii c in
  if ((65 <=? n)%nat && (n <=? 90)%nat)%bool then ascii_of_nat (n + 32) else c.

Fixpoint lstrip (l : list ascii) : list ascii :=
  match l with
  | c :: l' => if is_space c then lstrip l' else l
  | [] => []
  end.

Definition strip (l : list ascii) : list ascii :=
  rev (lstrip (rev (lstrip l))).

(** The digits after the first one of a [digitpart]: [acc] is the number read so
    far and [cnt] the number of digits read. *)
Fixpoint digitpart_rest (acc cnt : Z) (l : list ascii) : Z * Z * list ascii :=
  match l with
  | c :: l' =>
      match digit_of c with
      | Some d => digitpart_rest (10 * acc + d) (cnt + 1) l'
      | None =>
          if Ascii.eqb c "_" then
            match l' with
            | c' :: l'' =>
                match digit_of c' with
                | Some d => digitpart_rest (10 * acc + d) (cnt + 1) l''
                | None => (acc, cnt, l)
                end
            | [] => (acc, cnt, l)
            end
          else (acc, cnt, l)
      end
  | [] => (acc, cnt, l)
  end.

(** [digitpart ::= digit (["_"] digit)*] *)
Definition digitpart (acc : Z) (l : list ascii) : option (Z * Z * list ascii) :=
  match l with
  | c :: l' =>
      match digit_of c with
      | Some d => Some (digitpart_rest (10 * acc + d) 1 l')
      | None => None
      end
  | [] => None
  end.

(** [number ::= [digitpart] "." digitpart | digitpart ["."]]: the digits as one
    integer and the number of digits after the point. *)
Definition number (l : list ascii) : option (Z * Z * list ascii) :=
  match digitpart 0 l with
  | Some (m, _, "."%char :: l') =>
      match digitpart m l' with
      | Some (m', k, l'') => Some (m', k, l'')
      | None => Some (m, 0, l')
      end
  | Some (m, _, l') => Some (m, 0, l')
  | None =>
      match l with
      | "."%char :: l' =>
          match digitpart 0 l' with
          | Some (m', k, l'') => Some (m', k, l'')
          | None => None
          end
      | _ => None
      end
  end.

Definition read_sign (l : list ascii) : bool * list ascii :=
  match l with
  | "-"%char :: l' => (true, l')
  | "+"%char :: l' => (false, l')
  | _ => (false, l)
  end.

(** [exponent ::= ("e" | "E") [sign] digitpart]; an absent exponent is 0. *)
Definition exponent (l : list ascii) : option (Z * list ascii) :=
  match l with
  | [] => Some (0, [])
  | c :: l' =>
      if Ascii.eqb (lower c) "e" then
        let '(neg, l'') := read_sign l' in
        match digitpart 0 l'' with
        | Some (e, _, rest) => Some (if neg then - e else e, rest)
        | None => None
        end
      else None
  end.

(** The binary64 number nearest to [(-1)^neg * m * 10^e]. Decimal exponents beyond
    the range of binary64 give an infinity or a zero without computing the power. *)
Definition round_decimal (neg : bool) (m e : Z) : float :=
  SF2Prim
    match m with
    | Zpos p =>
        if 400 <? e then S754_infinity neg
        else if e <? -400 - Z.log2 m then S754_zero neg
        else if 0 <=? e then
          binary_normalize prec emax (if neg then - (m * 10 ^ e) else m * 10 ^ e) 0 neg
        else
          match 10 ^ (- e) with
          | Zpos d => SFdiv prec emax (S754_finite neg p 0) (S754_finite false d 0)
          | _ => S754_nan
          end
    | _ => S754_zero neg
    end.

Definition float_of_ascii (l : list ascii) : option float :=
  let '(neg, body) := read_sign (strip l) in
  let word := String.string_of_list_ascii (map lower body) in
  if String.eqb word "inf" || String.eqb word "infinity" then
    Some (if neg then neg_infinity else infinity)
  else if String.eqb word "nan" then Some nan
  else
    match number body with
    | Some (m, k, rest) =>
        match exponent rest with
        | Some (e, []) => Some (round_decimal neg m (e - k))
        | _ => None
        end
    | None => None
    end.

End PyFloat.

(** [float(s)]: [None] stands for the [ValueError] Python raises. *)
Definition float_of_string (s : string) : option float :=
  let bytes := map (λ c, Z.of_nat (nat_of_ascii c)) (String.list_ascii_of_string s) in
  PyFloat.float_of_ascii (map PyFloat.to_ascii (PyFloat.utf8_decode bytes)).

(** ** Data model: the fields of the Users and Recipes tables *)

(** The values of the [status] field of a recipe. *)
Inductive Status := unassigned | inProgress | approved | rejected.

Global Instance status_eq_dec : EqDecision Status.
Proof. solve_decision. Defined.

(** The two counters of a user, [stat_to_increment] in [update_user_stats]. *)
Inductive stat := numApproved_field | numRejected_field.

Record user := {
  FirstName : string;
  LastName : string;
  email : string;
  numApproved : Z;
  numRejected : Z
}.

(** A linked-record field ([userID], [ingredients], [reviewerID]) is a list of
    record identifiers; Airtable leaves an empty field out of the record, which
    the code reads with [.get(field, default)]: the empty list stands for that. *)
Record recipe := {
  userID : list string;
  status : Status;
  price : float;
  price_2x : float;
  price_3x : float;
  is_vegan : bool;
  ingredients : list string;
  reviewerID : list string
}.

(** The [fields] dictionary of [table_recipes.update]: the fields it names. *)
Record recipe_fields := {
  set_userID : option (list string);
  set_status : option Status;
  set_price : option float;
  set_price_2x : option float;
  set_price_3x : option float;
  set_is_vegan : option bool;
  set_ingredients : option (list string);
  set_reviewerID : option (list string)
}.

(** A record after an update: a named field takes the new value, the others stay. *)
Definition apply_fields (f : recipe_fields) (r : recipe) : recipe :=
  {| userID := default (userID r) (set_userID f);
     status := default (status r) (set_status f);
     price := default (price r) (set_price f);
     price_2x := default (price_2x r) (set_price_2x f);
     price_3x := default (price_3x r) (set_price_3x f);
     is_vegan := default (is_vegan r) (set_is_vegan f);
     ingredients := default (ingredients r) (set_ingredients f);
     reviewerID := default (reviewerID r) (set_reviewerID f) |}.

(** [user.get(stat_to_increment, 0)] *)
Definition get_stat (s : stat) (u : user) : Z :=
  match s with
  | numApproved_field => numApproved u
  | numRejected_field => numRejected u
  end.

Definition set_stat (s : stat) (n : Z) (u : user) : user :=
  match s with
  | numApproved_field =>
      {| FirstName := FirstName u; LastName := LastName u; email := email u;
         numApproved := n; numRejected := numRejected u |}
  | numRejected_field =>
      {| FirstName := FirstName u; LastName := LastName u; email := email u;
         numApproved := numApproved u; numRejected := n |}
  end.

(** ** The store, with the log of its writes *)

Inductive write :=
| users_update (user_id : string) (s : stat) (n : Z)
| recipes_create (recipe_id : string)
| recipes_update (recipe_id : string) (fields : recipe_fields).

Record airtable := {
  table_users : gmap string user;
  table_recipes : gmap string recipe;
  writes : list write
}.

(** ** Computations on the store that may raise *)

Inductive exn := ValueError | KeyError | HTTPError.

Inductive result (A : Type) :=
| Ok (a : A)
| Raise (e : exn).
Arguments Ok {A} a.
Arguments Raise {A} e.

Definition M (A : Type) : Type := airtable → result A * airtable.

Global Instance M_ret : MRet M := λ A a db, (Ok a, db).

Global Instance M_bind : MBind M := λ A B k m db,
  match m db with
  | (Ok a, db') => k a db'
  | (Raise e, db') => (Raise e, db')
  end.

Definition raise {A} (e : exn) : M A := λ db, (Raise e, db).

(** [try: body except Exception: handler] *)
Definition try_except {A} (body : M A) (handler : exn → M A) : M A := λ db,
  match body db with
  | (Ok a, db') => (Ok a, db')
  | (Raise e, db') => handler e db'
  end.

(** *** The table operations of the pyairtable client

    [get] and [update] of an identifier that is not in the table raise (the HTTP
    error of the API); [create] stores the record under an identifier that the
    table does not use yet; [all(formula=...)] is used with the formula
    [{status} = '...'] only. The store is taken to accept every record it is
    given: the checks Airtable itself applies to field values (a link to a record
    that does not exist, a number that is not finite) and failures of the network
    are outside the model. *)

Definition table_users_get (record_id : string) : M (string * user) := λ db,
  match table_users db !! record_id with
  | Some u => (Ok (record_id, u), db)
  | None => (Raise HTTPError, db)
  end.

Definition table_users_update (record_id : string) (s : stat) (n : Z) : M unit := λ db,
  match table_users db !! record_id with
  | Some u =>
      (Ok (),
       {| table_users := <[record_id := set_stat s n u]> (table_users db);
          table_recipes := table_recipes db;
          writes := writes db ++ [users_update record_id s n] |})
  | None => (Raise HTTPError, db)
  end.

Definition table_recipes_get (record_id : string) : M (string * recipe) := λ db,
  match table_recipes db !! record_id with
  | Some r => (Ok (record_id, r), db)
  | None => (Raise HTTPError, db)
  end.

Definition table_recipes_create (new_recipe : recipe) : M (string * recipe) := λ db,
  let record_id := fresh_string "rec" (table_recipes db) in
  (Ok (record_id, new_recipe),
   {| table_users := table_users db;
      table_recipes := <[record_id := new_recipe]> (table_recipes db);
      writes := writes db ++ [recipes_create record_id] |}).

Definition table_recipes_update (record_id : string) (fields : recipe_fields) : M unit :=
  λ db,
  match table_recipes db !! record_id with
  | Some r =>
      (Ok (),
       {| table_users := table_users db;
          table_recipes := <[record_id := apply_fields fields r]> (table_recipes db);
          writes := writes db ++ [recipes_update record_id fields] |})
  | None => (Raise HTTPError, db)
  end.

Definition table_recipes_all (s : Status) : M (list (string * recipe)) := λ db,
  (Ok (filter (λ rec, status rec.2 = s) (map_to_list (table_recipes db))), db).

(** ** [airtable_client.py] *)

(** The truth value of a Python string. *)
Definition truthy (s : string) : bool := negb (String.eqb s EmptyString).

Definition get_user_by_id (record_id : string) : M (option (string * user)) :=
  try_except (u ← table_users_get record_id; mret (Some u)) (λ _, mret None).

Definition update_user_stats (user_id : string) (stat_to_increment : stat) : M bool :=
  user ← get_user_by_id user_id;
  match user with
  | None => mret false
  | Some (_, u) =>
      let current_count := get_stat stat_to_increment u in
      let new_count := current_count + 1 in
      table_users_update user_id stat_to_increment new_count;;
      mret true
  end.

Definition create_recipe (user_id price : string) (is_vegan : bool)
    (ingredient_ids : list string) : M (option (string * recipe)) :=
  try_except
    (price_float ← match float_of_string price with
                   | Some x => mret x
                   | None => raise ValueError
                   end;
     let price_2x := (price_float * 2)%float in
     let price_3x := (price_float * 3)%float in
     let new_recipe :=
       {| userID := [user_id];
          status := unassigned;
          price := price_float;
          price_2x := price_2x;
          price_3x := price_3x;
          is_vegan := is_vegan;
          ingredients := ingredient_ids;
          reviewerID := [] |} in
     record ← table_recipes_create new_recipe;
     mret (Some record))
    (λ _, mret None).

Definition get_recipe_by_id (recipe_id : string) : M (option (string * recipe)) :=
  try_except (r ← table_recipes_get recipe_id; mret (Some r)) (λ _, mret None).

Definition get_unassigned_recipes : M (list (string * recipe)) :=
  table_recipes_all unassigned.

Definition get_recipes_by_reviewer (reviewer_id : string) (s : Status)
    : M (list (string * recipe)) :=
  all_records_with_status ← table_recipes_all s;
  mret (filter (λ rec, reviewer_id ∈ reviewerID rec.2) all_records_with_status).

Definition get_recipes_by_user (user_id : string) (s : Status)
    : M (list (string * recipe)) :=
  all_records_with_status ← table_recipes_all s;
  mret (filter (λ rec, user_id ∈ userID rec.2) all_records_with_status).

Definition assign_recipe_to_reviewer (recipe_id reviewer_id : string) : M unit :=
  let fields :=
    {| set_userID := None; set_status := Some inProgress; set_price := None;
       set_price_2x := None; set_price_3x := None; set_is_vegan := None;
       set_ingredients := None; set_reviewerID := Some [reviewer_id] |} in
  table_recipes_update recipe_id fields.

Definition update_recipe_status (recipe_id : string) (new_status : Status)
    (user_id_for_stats : option string) : M unit :=
  let fields :=
    {| set_userID := None; set_status := Some new_status; set_price := None;
       set_price_2x := None; set_price_3x := None; set_is_vegan := None;
       set_ingredients := None; set_reviewerID := None |} in
  let has_user := from_option truthy false user_id_for_stats in
  let uid := default EmptyString user_id_for_stats in
  (if bool_decide (new_status = approved) && has_user then
     update_user_stats uid numApproved_field;; mret ()
   else if bool_decide (new_status = rejected) && has_user then
     update_user_stats uid numRejected_field;; mret ()
   else mret ());;
  table_recipes_update recipe_id fields.

Definition update_rejected_recipe (recipe_id : string) (is_vegan : bool)
    (ingredient_ids : list string) : M unit :=
  let fields :=
    {| set_userID := None; set_status := Some unassigned; set_price := None;
       set_price_2x := None; set_price_3x := None; set_is_vegan := Some is_vegan;
       set_ingredients := Some ingredient_ids; set_reviewerID := Some [] |} in
  table_recipes_update recipe_id fields.

(** ** [app.py]: the route handlers of the workflow *)

(** What the handlers read of the Flask session: the [id] of the account
    dictionary stored at login under ['user'], and the ['role']. *)
Record session := {
  session_user : option string;
  session_role : option string
}.

Inductive http_method := GET | POST.

Global Instance http_method_eq_dec : EqDecision http_method.
Proof. solve_decision. Defined.

(** The form fields the handlers read: [request.form['price']],
    ['is_vegan' in request.form], [request.form.getlist('ingredients')],
    [request.form['action']]. *)
Record request := {
  method : http_method;
  form_price : string;
  form_is_vegan : bool;
  form_ingredients : list string;
  form_action : string
}.

Inductive endpoint := login | user_dashboard | reviewer_dashboard.

Inductive page :=
| redirect (target : endpoint)
| render_template (template : string).

(** A handler answers with the messages it flashed, [(message, category)], and
    the page it returns. *)
Definition response : Type := list (string * string) * page.

(** [not user or role != wanted] *)
Definition logged_in_as (wanted : string) (s : session) : option string :=
  match session_user s with
  | Some user_id =>
      if bool_decide (session_role s = Some wanted) then Some user_id else None
  | None => None
  end.

Definition non_empty {A} (l : list A) : bool :=
  match l with [] => false | _ => true end.

(** On GET, [add_recipe] and [edit_rejected_recipe] read the ingredient catalogue
    and render a form: a read of a table the workflow never writes, left out. *)
Definition add_recipe (s : session) (req : request) : M response :=
  match logged_in_as "user" s with
  | None => mret ([("Please log in as a user.", "warning")], redirect login)
  | Some user_id =>
      rejected_recipes ← get_recipes_by_user user_id rejected;
      if non_empty rejected_recipes then
        mret ([("You cannot add a new recipe while you have a rejected recipe. Please modify it first.",
                "danger")], redirect user_dashboard)
      else if bool_decide (method req = POST) then
        create_recipe user_id (form_price req) (form_is_vegan req) (form_ingredients req);;
        mret ([("Recipe submitted successfully!", "success")], redirect user_dashboard)
      else mret ([], render_template "add_recipe.html")
  end.

(** [recipe['userID'][0]]: a [KeyError] when the record has no [userID] field. *)
Definition first_userID (r : recipe) : M string :=
  match userID r with
  | u :: _ => mret u
  | [] => raise KeyError
  end.

Definition edit_rejected_recipe (s : session) (req : request) (recipe_id : string)
    : M response :=
  match logged_in_as "user" s with
  | None => mret ([("Please log in as a user.", "warning")], redirect login)
  | Some user_id =>
      recipe ← get_recipe_by_id recipe_id;
      denied ← match recipe with
               | None => mret true
               | Some (_, r) =>
                   if bool_decide (status r ≠ rejected) then mret true
                   else owner ← first_userID r; mret (bool_decide (owner ≠ user_id))
               end;
      if denied : bool then
        mret ([("Recipe not found or access denied.", "error")], redirect user_dashboard)
      else if bool_decide (method req = POST) then
        update_rejected_recipe recipe_id (form_is_vegan req) (form_ingredients req);;
        mret ([("Recipe modified and resubmitted for review.", "success")],
              redirect user_dashboard)
      else mret ([], render_template "edit_rejected_recipe.html")
  end.

Definition assign_recipe (s : session) (recipe_id : string) : M response :=
  match logged_in_as "reviewer" s with
  | None => mret ([("Not authorized.", "danger")], redirect login)
  | Some reviewer_id =>
      in_progress_recipe ← get_recipes_by_reviewer reviewer_id inProgress;
      if non_empty in_progress_recipe then
        mret ([("You already have a recipe in progress. Please review it first.", "danger")],
              redirect reviewer_dashboard)
      else
        assign_recipe_to_reviewer recipe_id reviewer_id;;
        mret ([("Recipe assigned to you.", "success")], redirect reviewer_dashboard)
  end.

(** The route accepts POST only; the handler does not read the method. *)
Definition review_recipe (s : session) (req : request) (recipe_id : string)
    : M response :=
  match logged_in_as "reviewer" s with
  | None => mret ([("Not authorized.", "danger")], redirect login)
  | Some reviewer_id =>
      recipe ← get_recipe_by_id recipe_id;
      match recipe with
      | Some (_, r) =>
          (* recipe.get('reviewerID', [''])[0] != reviewer['id'] *)
          if bool_decide (hd EmptyString (reviewerID r) ≠ reviewer_id) then
            mret ([("This recipe is not assigned to you.", "danger")],
                  redirect reviewer_dashboard)
          else
            (* recipe.get('userID', [None])[0] *)
            let user_id_to_update := head (userID r) in
            if negb (from_option truthy false user_id_to_update) then
              mret ([("Error: Recipe is not linked to a user.", "danger")],
                    redirect reviewer_dashboard)
            else
              let action := form_action req in
              if String.eqb action "approve" then
                update_recipe_status recipe_id approved user_id_to_update;;
                mret ([("Recipe approved!", "success")], redirect reviewer_dashboard)
              else if String.eqb action "reject" then
                update_recipe_status recipe_id rejected user_id_to_update;;
                mret ([("Recipe rejected.", "warning")], redirect reviewer_dashboard)
              else mret ([], redirect reviewer_dashboard)
      | None =>
          mret ([("This recipe is not assigned to you.", "danger")],
                redirect reviewer_dashboard)
      end
  end.

(** ** Observations and runs *)

(** The list a read-only query returns on a store. *)
Definition query {A} (m : M (list A)) (db : airtable) : list A :=
  match m db with
  | (Ok l, _) => l
  | (Raise _, _) => []
  end.

(** 1 when a record matches, 0 when it does not. *)
Definition hit {V} (P : string * V → Prop) `{!∀ x, Decision (P x)} (x : string * V) : nat :=
  if decide (P x) then 1%nat else 0%nat.

(** The records the two-stage queries keep: those with status [s] whose link
    field holds the identifier. *)
Definition owned_with (user_id : string) (s : Status) (rec : string * recipe) : Prop :=
  user_id ∈ userID rec.2 ∧ status rec.2 = s.

Definition reviewed_with (reviewer_id : string) (s : Status) (rec : string * recipe)
    : Prop :=
  reviewer_id ∈ reviewerID rec.2 ∧ status rec.2 = s.

Global Instance owned_with_dec user_id s rec : Decision (owned_with user_id s rec).
Proof. unfold owned_with. apply _. Defined.

Global Instance reviewed_with_dec reviewer_id s rec :
  Decision (reviewed_with reviewer_id s rec).
Proof. unfold reviewed_with. apply _. Defined.

(** The stores a sequence of calls goes through, the first one included. An
    uncaught exception ends its request only: the next call runs on the store the
    failed one left. *)
Fixpoint states_along {A} (calls : list (M A)) (db : airtable) : list airtable :=
  db :: match calls with
        | [] => []
        | call :: calls' => states_along calls' (call db).2
        end.

(** The four state-changing operations of the workflow, by their route. *)
Inductive operation :=
| Submit (s : session) (req : request)
| Resubmit (s : session) (req : request) (recipe_id : string)
| Assign (s : session) (recipe_id : string)
| Decide (s : session) (req : request) (recipe_id : string).

Definition handle (op : operation) : M response :=
  match op with
  | Submit s req => add_recipe s req
  | Resubmit s req recipe_id => edit_rejected_recipe s req recipe_id
  | Assign s recipe_id => assign_recipe s recipe_id
  | Decide s req recipe_id => review_recipe s req recipe_id
  end.

(** The flashed refusals and confirmations of the handlers. *)
Definition has_rejected_recipe : response :=
  ([("You cannot add a new recipe while you have a rejected recipe. Please modify it first.",
     "danger")], redirect user_dashboard).
Definition recipe_submitted : response :=
  ([("Recipe submitted successfully!", "success")], redirect user_dashboard).
Definition access_denied : response :=
  ([("Recipe not found or access denied.", "error")], redirect user_dashboard).
Definition recipe_resubmitted : response :=
  ([("Recipe modified and resubmitted for review.", "success")], redirect user_dashboard).
Definition already_in_progress : response :=
  ([("You already have a recipe in progress. Please review it first.", "danger")],
   redirect reviewer_dashboard).
Definition recipe_assigned : response :=
  ([("Recipe assigned to you.", "success")], redirect reviewer_dashboard).
Definition recipe_approved : response :=
  ([("Recipe approved!", "success")], redirect reviewer_dashboard).
Definition recipe_rejected : response :=
  ([("Recipe rejected.", "warning")], redirect reviewer_dashboard).

(** What [review_recipe] does with the [action] of the form (lines 219-225): the
    status it writes, the counter it increments and its answer; [None] for any
    other action. *)
Definition decision (action : string) : option (Status * stat * response) :=
  if String.eqb action "approve" then Some (approved, numApproved_field, recipe_approved)
  else if String.eqb action "reject" then Some (rejected, numRejected_field, recipe_rejected)
  else None.

(** The [fields] of [update_recipe_status] and of [assign_recipe_to_reviewer]. *)
Definition status_fields (new_status : Status) : recipe_fields :=
  {| set_userID := None; set_status := Some new_status; set_price := None;
     set_price_2x := None; set_price_3x := None; set_is_vegan := None;
     set_ingredients := None; set_reviewerID := None |}.

Definition assign_fields (reviewer_id : string) : recipe_fields :=
  {| set_userID := None; set_status := Some inProgress; set_price := None;
     set_price_2x := None; set_price_3x := None; set_is_vegan := None;
     set_ingredients := None; set_reviewerID := Some [reviewer_id] |}.

Definition resubmit_fields (vegan : bool) (ingredient_ids : list string) : recipe_fields :=
  {| set_userID := None; set_status := Some unassigned; set_price := None;
     set_price_2x := None; set_price_3x := None; set_is_vegan := Some vegan;
     set_ingredients := Some ingredient_ids; set_reviewerID := Some [] |}.

(** Every recipe of [db] is still in [db'] with the same price and the same two
    multiples of it. *)
Definition prices_kept (db db' : airtable) : Prop :=
  ∀ (recipe_id : string) (r : recipe),
    table_recipes db !! recipe_id = Some r →
    ∃ r' : recipe,
      table_recipes db' !! recipe_id = Some r'
      ∧ price r' = price r ∧ price_2x r' = price_2x r ∧ price_3x r' = price_3x r.

(** A computation that keeps the prices from every store. *)
Definition keeps_prices {A} (m : M A) : Prop := ∀ db, prices_kept db (m db).2.

(** Fields that name none of [price], [price_2x], [price_3x]. *)
Definition no_price_field (f : recipe_fields) : Prop :=
  set_price f = None ∧ set_price_2x f = None ∧ set_price_3x f = None.

(** ** The two interleavable halves of [assign_recipe]

    [assign_recipe] reaches the store twice: the query of line 196 and the update
    of line 200. Nothing in the handler or the adapter holds a lock between the
    two, so the requests of two sessions served at the same time can interleave
    there. *)

(** Lines 189-199: the answer when the handler returns early, or the reviewer
    identifier with which it goes on. *)
Definition assign_recipe_check (s : session) : M (response + string) :=
  match logged_in_as "reviewer" s with
  | None => mret (inl ([("Not authorized.", "danger")], redirect login))
  | Some reviewer_id =>
      in_progress_recipe ← get_recipes_by_reviewer reviewer_id inProgress;
      if non_empty in_progress_recipe then mret (inl already_in_progress)
      else mret (inr reviewer_id)
  end.

(** Lines 200-202. *)
Definition assign_recipe_write (recipe_id : string) (checked : response + string)
    : M response :=
  match checked with
  | inl answered => mret answered
  | inr reviewer_id =>
      assign_recipe_to_reviewer recipe_id reviewer_id;;
      mret recipe_assigned
  end.

(** Two Assign requests whose checks both run before either write. *)
Definition assign_recipe_overlapping (s1 : session) (recipe_id1 : string)
    (s2 : session) (recipe_id2 : string) : M (response * response) :=
  checked1 ← assign_recipe_check s1;
  checked2 ← assign_recipe_check s2;
  answer1 ← assign_recipe_write recipe_id1 checked1;
  answer2 ← assign_recipe_write recipe_id2 checked2;
  mret (answer1, answer2).

(** ** A store for the examples: the scenarios of the specification *)
Module Scenario.

Definition ann : user :=
  {| FirstName := "Ann"; LastName := "Lee"; email := "ann@example.org";
     numApproved := 0; numRejected := 0 |}.

Definition db0 : airtable :=
  {| table_users := {[ "recU1" := ann ]}; table_recipes := ∅; writes := [] |}.

Definition U1 : session :=
  {| session_user := Some "recU1"; session_role := Some "user" |}.
Definition V1 : session :=
  {| session_user := Some "recV1"; session_role := Some "reviewer" |}.
Definition V2 : session :=
  {| session_user := Some "recV2"; session_role := Some "reviewer" |}.

(** The form of a Submit and the form of a Decide. *)
Definition submit_form (price_input : string) : request :=
  {| method := POST; form_price := price_input; form_is_vegan := false;
     form_ingredients := ["recI1"]; form_action := EmptyString |}.

Definition decide_form (action : string) : request :=
  {| method := POST; form_price := EmptyString; form_is_vegan := false;
     form_ingredients := []; form_action := action |}.

Definition edit : request :=
  {| method := POST; form_price := EmptyString; form_is_vegan := true;
     form_ingredients := ["recI2"]; form_action := EmptyString |}.

(** The recipe of the scenarios, in a given status and with given reviewers. *)
Definition recipe_10 (st : Status) (reviewers : list string) : recipe :=
  {| userID := ["recU1"]; status := st; price := 10%float;
     price_2x := 20%float; price_3x := 30%float; is_vegan := false;
     ingredients := ["recI1"]; reviewerID := reviewers |}.

Definition ann_approved_once : user :=
  {| FirstName := "Ann"; LastName := "Lee"; email := "ann@example.org";
     numApproved := 1; numRejected := 0 |}.

(** Scenario A: Submit, Assign, Decide(approved). *)
Definition submitted : airtable := (add_recipe U1 (submit_form "10") db0).2.
Definition assigned : airtable := (assign_recipe V1 "rec" submitted).2.
Definition decided_approved : airtable :=
  (review_recipe V1 (decide_form "approve") "rec" assigned).2.
(** Scenario B: Decide(rejected) instead. *)
Definition decided_rejected : airtable :=
  (review_recipe V1 (decide_form "reject") "rec" assigned).2.
(** Scenario C: Resubmit. *)
Definition resubmitted : airtable :=
  (edit_rejected_recipe U1 edit "rec" decided_rejected).2.
(** Scenario D: a second recipe while the first is in progress. *)
Definition two_submitted : airtable := (add_recipe U1 (submit_form "4.5") submitted).2.
Definition one_assigned : airtable := (assign_recipe V1 "rec" two_submitted).2.

End Scenario.

(** ** Further stores and requests for the examples *)
Module Cases.

(** A session without account, and a form fetched with GET. *)
Definition nobody : session := {| session_user := None; session_role := None |}.

Definition get_form : request :=
  {| method := GET; form_price := "12"; form_is_vegan := false;
     form_ingredients := []; form_action := EmptyString |}.

(** A rejected recipe that has lost its owner link. *)
Definition ownerless : airtable :=
  {| table_users := ∅;
     table_recipes :=
       {[ "recX" := {| userID := []; status := rejected; price := 8%float;
                       price_2x := 16%float; price_3x := 24%float; is_vegan := true;
                       ingredients := []; reviewerID := ["recV1"] |} ]};
     writes := [] |}.

(** A recipe in progress whose owner is not in the Users table. *)
Definition orphan : recipe :=
  {| userID := ["recGone"]; status := inProgress; price := 8%float;
     price_2x := 16%float; price_3x := 24%float; is_vegan := true;
     ingredients := []; reviewerID := ["recV1"] |}.

Definition orphaned : airtable :=
  {| table_users := ∅; table_recipes := {[ "recY" := orphan ]}; writes := [] |}.

(** A run that goes through every kind of operation. *)
Definition busy_day : list operation :=
  [ Submit Scenario.U1 (Scenario.submit_form "10");
    Submit Scenario.U1 (Scenario.submit_form "4.5");
    Assign Scenario.V1 "rec";
    Assign Scenario.V1 "rec0";
    Assign Scenario.V2 "rec0";
    Decide Scenario.V1 (Scenario.decide_form "reject") "rec";
    Resubmit Scenario.U1 Scenario.edit "rec";
    Decide Scenario.V2 (Scenario.decide_form "approve") "rec0";
    Assign Scenario.V1 "rec" ].

(** Two recipes of one user, rejected one after the other by one reviewer. *)
Definition two_rejections : list operation :=
  [ Submit Scenario.U1 (Scenario.submit_form "10");
    Submit Scenario.U1 (Scenario.submit_form "4.5");
    Assign Scenario.V1 "rec";
    Decide Scenario.V1 (Scenario.decide_form "reject") "rec";
    Assign Scenario.V1 "rec0";
    Decide Scenario.V1 (Scenario.decide_form "reject") "rec0" ].

End Cases.

(** ** [app.py]: the home page, the dashboards and the logout

    These handlers write nothing to the store. A dashboard answers with a flashed
    redirect or with the arguments it gives its template; the ingredient catalogue
    that [reviewer_dashboard] also passes on is a read of a table the workflow
    never writes, left out as in [add_recipe]. *)

Definition index (s : session) : response :=
  match logged_in_as "user" s with
  | Some _ => ([], redirect user_dashboard)
  | None =>
      match logged_in_as "reviewer" s with
      | Some _ => ([], redirect reviewer_dashboard)
      | None => ([], redirect login)
      end
  end.

(** [session.clear()], the flash and the redirect. *)
Definition logout (s : session) : session * response :=
  ({| session_user := None; session_role := None |},
   ([("You have been logged out.", "success")], redirect login)).

Inductive dashboard :=
| user_dashboard_html (rejected_recipes : list (string * recipe)) (has_rejected : bool)
| reviewer_dashboard_html (in_progress_recipe : option (string * recipe))
    (unassigned_recipes : list (string * recipe)) (has_in_progress : bool).

Definition user_dashboard_view (s : session) : M (response + dashboard) :=
  match logged_in_as "user" s with
  | None => mret (inl ([("Please log in as a user.", "warning")], redirect login))
  | Some user_id =>
      rejected_recipes ← get_recipes_by_user user_id rejected;
      let has_rejected := bool_decide (0 < length rejected_recipes)%nat in
      mret (inr (user_dashboard_html rejected_recipes has_rejected))
  end.

Definition reviewer_dashboard_view (s : session) : M (response + dashboard) :=
  match logged_in_as "reviewer" s with
  | None => mret (inl ([("Please log in as a reviewer.", "warning")], redirect login))
  | Some reviewer_id =>
      in_progress_recipe ← get_recipes_by_reviewer reviewer_id inProgress;
      let has_in_progress := non_empty in_progress_recipe in
      unassigned_recipes ← (if negb has_in_progress then get_unassigned_recipes
                            else mret []);
      mret (inr (reviewer_dashboard_html
                   (if has_in_progress then head in_progress_recipe else None)
                   unassigned_recipes has_in_progress))
  end.

(** ** The steps of the recipe table

    What one operation can do to the Recipes table: nothing, or one of four
    writes. [step db op recipes'] relates the store before the operation to the
    Recipes table after it. *)
Inductive step (db : airtable) : operation → gmap string recipe → Prop :=
| step_none (op : operation) :
    step db op (table_recipes db)
| step_submit (s : session) (req : request) (U : string) (p : float) :
    logged_in_as "user" s = Some U →
    query (get_recipes_by_user U rejected) db = [] →
    method req = POST →
    float_of_string (form_price req) = Some p →
    step db (Submit s req)
      (<[fresh_string "rec" (table_recipes db) :=
           {| userID := [U]; status := unassigned; price := p;
              price_2x := (p * 2)%float; price_3x := (p * 3)%float;
              is_vegan := form_is_vegan req; ingredients := form_ingredients req;
              reviewerID := [] |}]> (table_recipes db))
| step_resubmit (s : session) (req : request) (recipe_id U : string) (r : recipe) :
    logged_in_as "user" s = Some U →
    table_recipes db !! recipe_id = Some r →
    status r = rejected →
    head (userID r) = Some U →
    method req = POST →
    step db (Resubmit s req recipe_id)
      (<[recipe_id :=
           apply_fields (resubmit_fields (form_is_vegan req) (form_ingredients req)) r]>
         (table_recipes db))
| step_assign (s : session) (recipe_id V : string) (r : recipe) :
    logged_in_as "reviewer" s = Some V →
    query (get_recipes_by_reviewer V inProgress) db = [] →
    table_recipes db !! recipe_id = Some r →
    step db (Assign s recipe_id)
      (<[recipe_id := apply_fields (assign_fields V) r]> (table_recipes db))
| step_decide (s : session) (req : request) (recipe_id V U : string) (r : recipe)
    (new_status : Status) (counter : stat) (answer : response) :
    logged_in_as "reviewer" s = Some V →
    table_recipes db !! recipe_id = Some r →
    hd EmptyString (reviewerID r) = V →
    head (userID r) = Some U →
    truthy U = true →
    decision (form_action req) = Some (new_status, counter, answer) →
    step db (Decide s req recipe_id)
      (<[recipe_id := apply_fields (status_fields new_status) r]> (table_recipes db)).

(** The session of an operation. *)
Definition session_of (op : operation) : session :=
  match op with
  | Submit s _ | Resubmit s _ _ | Assign s _ | Decide s _ _ => s
  end.

(** The role a route asks for. *)
Definition role_of (op : operation) : string :=
  match op with
  | Submit _ _ | Resubmit _ _ _ => "user"
  | Assign _ _ | Decide _ _ _ => "reviewer"
  end.

(** The answer of a route to a session without that role. *)
Definition sent_to_login (op : operation) : response :=
  match op with
  | Submit _ _ | Resubmit _ _ _ => ([("Please log in as a user.", "warning")], redirect login)
  | Assign _ _ | Decide _ _ _ => ([("Not authorized.", "danger")], redirect login)
  end.

(** The reviewer link of a recipe fits its status: none while unassigned, exactly
    one reviewer otherwise. *)
Definition link_fits_status (r : recipe) : Prop :=
  (status r = unassigned → reviewerID r = [])
  ∧ (status r ≠ unassigned → ∃ reviewer_id : string, reviewerID r = [reviewer_id]).

Definition links_fit (db : airtable) : Prop :=
  ∀ (recipe_id : string) (r : recipe),
    table_recipes db !! recipe_id = Some r → link_fits_status r.

(** Every user of [db] is still in [db'], with the same name and email and with
    counters that did not go down. *)
Definition counters_grow (db db' : airtable) : Prop :=
  ∀ (user_id : string) (u : user),
    table_users db !! user_id = Some u →
    ∃ u' : user,
      table_users db' !! user_id = Some u'
      ∧ FirstName u' = FirstName u ∧ LastName u' = LastName u ∧ email u' = email u
      ∧ numApproved u ≤ numApproved u' ∧ numRejected u ≤ numRejected u'.

(** Every recipe of [db] is still in [db'], with the same owners. *)
Definition owners_kept (db db' : airtable) : Prop :=
  ∀ (recipe_id : string) (r : recipe),
    table_recipes db !! recipe_id = Some r →
    ∃ r' : recipe, table_recipes db' !! recipe_id = Some r' ∧ userID r' = userID r.

(** The refusals of [review_recipe]. *)
Definition not_assigned_to_you : response :=
  ([("This recipe is not assigned to you.", "danger")], redirect reviewer_dashboard).
Definition not_linked_to_user : response :=
  ([("Error: Recipe is not linked to a user.", "danger")], redirect reviewer_dashboard).

(** * Properties *)

(** ** Records matching a predicate, before and after a write *)
Section FilterTable.
Context {V : Type} (P : string * V → Prop) `{!∀ x, Decision (P x)}.

Lemma length_filter_cons x l :
  length (filter P (x :: l)) = (hit P x + length (filter P l))%nat.
Proof. unfold hit. rewrite filter_cons. by destruct (decide (P x)). Qed.

Lemma length_filter_insert_fresh (m : gmap string V) k v :
  m !! k = None →
  length (filter P (map_to_list (<[k:=v]> m)))
  = (hit P (k, v) + length (filter P (map_to_list m)))%nat.
Proof.
  intros Hk. rewrite (map_to_list_insert m k v Hk). apply length_filter_cons.
Qed.

Lemma length_filter_insert_over (m : gmap string V) k old v :
  m !! k = Some old →
  (length (filter P (map_to_list (<[k:=v]> m))) + hit P (k, old)
   = hit P (k, v) + length (filter P (map_to_list m)))%nat.
Proof.
  intros Hk.
  rewrite <- (insert_delete_eq m k v).
  rewrite length_filter_insert_fresh by apply lookup_delete_eq.
  assert (length (filter P (map_to_list m))
          = length (filter P ((k, old) :: map_to_list (delete k m)))) as ->
    by (by rewrite (map_to_list_delete m k old Hk)).
  rewrite length_filter_cons. lia.
Qed.

Lemma filter_hit_nonempty (m : gmap string V) k v :
  m !! k = Some v → P (k, v) → filter P (map_to_list m) ≠ [].
Proof.
  intros Hk HP Hnil.
  assert ((k, v) ∈ filter P (map_to_list m)) as Hin
    by (apply list_elem_of_filter; split; [done | by apply elem_of_map_to_list]).
  rewrite Hnil in Hin. by apply not_elem_of_nil in Hin.
Qed.
End FilterTable.

(** ** The adapter functions, run on a store *)

Lemma query_by_user user_id s db :
  query (get_recipes_by_user user_id s) db
  = filter (owned_with user_id s) (map_to_list (table_recipes db)).
Proof. unfold query. simpl. apply list_filter_filter. Qed.

Lemma query_by_reviewer reviewer_id s db :
  query (get_recipes_by_reviewer reviewer_id s) db
  = filter (reviewed_with reviewer_id s) (map_to_list (table_recipes db)).
Proof. unfold query. simpl. apply list_filter_filter. Qed.

Lemma get_recipes_by_user_run user_id s db :
  get_recipes_by_user user_id s db
  = (Ok (query (get_recipes_by_user user_id s) db), db).
Proof. reflexivity. Qed.

Lemma get_recipes_by_reviewer_run reviewer_id s db :
  get_recipes_by_reviewer reviewer_id s db
  = (Ok (query (get_recipes_by_reviewer reviewer_id s) db), db).
Proof. reflexivity. Qed.

Lemma non_empty_false {A} (l : list A) : non_empty l = false ↔ l = [].
Proof. by destruct l. Qed.

Lemma non_empty_true {A} (l : list A) : non_empty l = true ↔ l ≠ [].
Proof. by destruct l. Qed.

(** [create_recipe] stores one record under an unused identifier when the price
    parses, and nothing when it does not; it never raises. *)
Lemma create_recipe_run user_id price_input vegan ingredient_ids db :
  create_recipe user_id price_input vegan ingredient_ids db
  = match float_of_string price_input with
    | Some p =>
        let new_recipe :=
          {| userID := [user_id]; status := unassigned; price := p;
             price_2x := (p * 2)%float; price_3x := (p * 3)%float;
             is_vegan := vegan; ingredients := ingredient_ids; reviewerID := [] |} in
        let record_id := fresh_string "rec" (table_recipes db) in
        (Ok (Some (record_id, new_recipe)),
         {| table_users := table_users db;
            table_recipes := <[record_id := new_recipe]> (table_recipes db);
            writes := writes db ++ [recipes_create record_id] |})
    | None => (Ok None, db)
    end.
Proof.
  unfold create_recipe, try_except, mbind, M_bind, mret, M_ret, raise.
  by destruct (float_of_string price_input).
Qed.

Lemma table_recipes_update_run recipe_id fields db :
  table_recipes_update recipe_id fields db
  = match table_recipes db !! recipe_id with
    | Some r =>
        (Ok (),
         {| table_users := table_users db;
            table_recipes := <[recipe_id := apply_fields fields r]> (table_recipes db);
            writes := writes db ++ [recipes_update recipe_id fields] |})
    | None => (Raise HTTPError, db)
    end.
Proof. reflexivity. Qed.

(** ** Submit: the rejected recipes of a user *)

Lemma add_recipe_rejected_count s req db user_id :
  length (query (get_recipes_by_user user_id rejected) (add_recipe s req db).2)
  = length (query (get_recipes_by_user user_id rejected) db).
Proof.
  unfold add_recipe. destruct (logged_in_as "user" s) as [u|]; [|done].
  unfold mbind, M_bind at 1. rewrite get_recipes_by_user_run.
  destruct (non_empty _); [done|].
  destruct (bool_decide (method req = POST)); [|done].
  unfold mbind, M_bind. rewrite create_recipe_run.
  destruct (float_of_string (form_price req)) as [p|]; [|done].
  simpl. rewrite !query_by_user. simpl.
  rewrite length_filter_insert_fresh by apply fresh_string_fresh.
  unfold hit. rewrite decide_False; [done|]. by intros [_ ?].
Qed.

Lemma add_recipe_refused s req db user_id :
  logged_in_as "user" s = Some user_id →
  query (get_recipes_by_user user_id rejected) db ≠ [] →
  add_recipe s req db = (Ok has_rejected_recipe, db).
Proof.
  intros Hs Hrej. unfold add_recipe. rewrite Hs.
  unfold mbind, M_bind at 1. rewrite get_recipes_by_user_run.
  apply non_empty_true in Hrej. by rewrite Hrej.
Qed.

(** C3, as the code has it. The only guard is at Submit. A Submit never changes
    how many rejected recipes a submitter [U] has: in every store a sequence of
    Submit calls by [U] goes through, [U] has as many rejected recipes as before
    the first call, whatever that number is; and a Submit by [U] on a store in
    which [U] has a rejected recipe is refused with the "rejected recipe" message
    and leaves the store as it was: no recipe is created. Nothing bounds that
    number by one: a Decide looks at the one recipe it is given. *)
Theorem submit_keeps_rejected_count (s : session) (U : string)
    (reqs : list request) (db : airtable) :
  logged_in_as "user" s = Some U →
  Forall (λ db', length (query (get_recipes_by_user U rejected) db')
                 = length (query (get_recipes_by_user U rejected) db))
         (states_along (map (add_recipe s) reqs) db)
  ∧ (∀ (req : request) (db' : airtable),
        query (get_recipes_by_user U rejected) db' ≠ [] →
        add_recipe s req db' = (Ok has_rejected_recipe, db')).
Proof.
  intros Hs. split.
  - assert (∀ db',
              length (query (get_recipes_by_user U rejected) db')
              = length (query (get_recipes_by_user U rejected) db) →
              Forall (λ db', length (query (get_recipes_by_user U rejected) db')
                             = length (query (get_recipes_by_user U rejected) db))
                     (states_along (map (add_recipe s) reqs) db')) as Hgen.
    { induction reqs as [|req reqs IH]; intros db' Hsame; simpl.
      - by constructor.
      - constructor; [done|]. apply IH. by rewrite add_recipe_rejected_count. }
    by apply Hgen.
  - intros req db'. by apply add_recipe_refused.
Qed.

(** ** Assign: the in-progress recipes of a reviewer *)

Lemma assign_recipe_refused s recipe_id db reviewer_id :
  logged_in_as "reviewer" s = Some reviewer_id →
  query (get_recipes_by_reviewer reviewer_id inProgress) db ≠ [] →
  assign_recipe s recipe_id db = (Ok already_in_progress, db).
Proof.
  intros Hs Hbusy. unfold assign_recipe. rewrite Hs.
  unfold mbind, M_bind at 1. rewrite get_recipes_by_reviewer_run.
  apply non_empty_true in Hbusy. by rewrite Hbusy.
Qed.

(** What an Assign by a reviewer without a recipe in progress does: it updates the
    recipe when the identifier resolves, whatever the recipe's status, and raises
    the error of the store when it does not. *)
Lemma assign_recipe_free s recipe_id db reviewer_id :
  logged_in_as "reviewer" s = Some reviewer_id →
  query (get_recipes_by_reviewer reviewer_id inProgress) db = [] →
  assign_recipe s recipe_id db
  = match table_recipes db !! recipe_id with
    | Some r =>
        let fields := assign_fields reviewer_id in
        (Ok recipe_assigned,
         {| table_users := table_users db;
            table_recipes := <[recipe_id := apply_fields fields r]> (table_recipes db);
            writes := writes db ++ [recipes_update recipe_id fields] |})
    | None => (Raise HTTPError, db)
    end.
Proof.
  intros Hs Hfree. unfold assign_recipe. rewrite Hs.
  unfold mbind, M_bind at 1. rewrite get_recipes_by_reviewer_run, Hfree. simpl.
  unfold mbind, M_bind, assign_recipe_to_reviewer. rewrite table_recipes_update_run.
  by destruct (table_recipes db !! recipe_id).
Qed.

Lemma assign_recipe_in_progress_count s recipe_id db reviewer_id :
  logged_in_as "reviewer" s = Some reviewer_id →
  (length (query (get_recipes_by_reviewer reviewer_id inProgress) db) ≤ 1)%nat →
  (length (query (get_recipes_by_reviewer reviewer_id inProgress)
                 (assign_recipe s recipe_id db).2) ≤ 1)%nat.
Proof.
  intros Hs Hone.
  destruct (query (get_recipes_by_reviewer reviewer_id inProgress) db) as [|x l] eqn:Hq.
  - rewrite (assign_recipe_free _ _ _ _ Hs Hq).
    destruct (table_recipes db !! recipe_id) as [r|] eqn:Hr; simpl.
    + rewrite query_by_reviewer in *. simpl.
      pose proof (length_filter_insert_over (reviewed_with reviewer_id inProgress)
                    (table_recipes db) recipe_id r
                    (apply_fields (assign_fields reviewer_id) r) Hr) as Hlen.
      rewrite Hq in Hlen. simpl in Hlen. unfold hit in Hlen at 2.
      destruct (decide _) in Hlen; lia.
    + by rewrite Hq.
  - rewrite (assign_recipe_refused _ _ _ _ Hs) by (by rewrite Hq). simpl.
    by rewrite Hq.
Qed.

(** C4. Along every sequence of Assign calls by a reviewer [R] who starts with at
    most one recipe in progress, at most one recipe linked to [R] is in progress in
    every store the sequence goes through; and an Assign by [R] on a store in which
    [R] has a recipe in progress is refused with the "already in progress" message
    (the conflict refusal) and leaves the store as it was, so that the target
    recipe keeps its status. *)
Theorem assign_at_most_one_in_progress (s : session) (R : string)
    (recipe_ids : list string) (db : airtable) :
  logged_in_as "reviewer" s = Some R →
  (length (query (get_recipes_by_reviewer R inProgress) db) ≤ 1)%nat →
  Forall (λ db', (length (query (get_recipes_by_reviewer R inProgress) db') ≤ 1)%nat)
         (states_along (map (assign_recipe s) recipe_ids) db)
  ∧ (∀ (recipe_id : string) (db' : airtable),
        query (get_recipes_by_reviewer R inProgress) db' ≠ [] →
        assign_recipe s recipe_id db' = (Ok already_in_progress, db')).
Proof.
  intros Hs Hone. split.
  - revert db Hone. induction recipe_ids as [|recipe_id recipe_ids IH];
      intros db Hone; simpl.
    + by constructor.
    + constructor; [done|]. apply IH. by apply assign_recipe_in_progress_count.
  - intros recipe_id db'. by apply assign_recipe_refused.
Qed.

(** C2, as the code has it. Assign does not read the status of its target: on a
    recipe in any status (unassigned, inProgress, approved or rejected), an Assign
    by a reviewer who holds no recipe in progress succeeds; it writes status
    inProgress and the acting reviewer as the only linked reviewer, and nothing
    else. *)
Theorem assign_whatever_the_status (s : session) (R recipe_id : string)
    (db : airtable) (r : recipe) :
  logged_in_as "reviewer" s = Some R →
  query (get_recipes_by_reviewer R inProgress) db = [] →
  table_recipes db !! recipe_id = Some r →
  assign_recipe s recipe_id db
  = (Ok recipe_assigned,
     {| table_users := table_users db;
        table_recipes :=
          <[recipe_id := {| userID := userID r; status := inProgress;
                            price := price r; price_2x := price_2x r;
                            price_3x := price_3x r; is_vegan := is_vegan r;
                            ingredients := ingredients r; reviewerID := [R] |}]>
            (table_recipes db);
        writes := writes db ++ [recipes_update recipe_id (assign_fields R)] |}).
Proof.
  intros Hs Hfree Hr. rewrite (assign_recipe_free _ _ _ _ Hs Hfree), Hr. done.
Qed.

(** ** Decide: the counter and the status *)

Lemma update_user_stats_run user_id counter db :
  update_user_stats user_id counter db
  = match table_users db !! user_id with
    | Some u =>
        (Ok true,
         {| table_users :=
              <[user_id := set_stat counter (get_stat counter u + 1) u]> (table_users db);
            table_recipes := table_recipes db;
            writes := writes db ++ [users_update user_id counter (get_stat counter u + 1)] |})
    | None => (Ok false, db)
    end.
Proof.
  unfold update_user_stats, get_user_by_id, try_except, table_users_get,
    table_users_update, mbind, M_bind, mret, M_ret.
  destruct (table_users db !! user_id) as [u|] eqn:Hu; [|done].
  by rewrite Hu.
Qed.

(** [update_recipe_status] with the owner's identifier: the counter is written
    first and the status after it; when the status write raises, the counter
    stays incremented. *)
Lemma update_recipe_status_run recipe_id new_status counter answer action U u db :
  decision action = Some (new_status, counter, answer) →
  truthy U = true →
  table_users db !! U = Some u →
  update_recipe_status recipe_id new_status (Some U) db
  = let counted :=
      <[U := set_stat counter (get_stat counter u + 1) u]> (table_users db) in
    let increment := users_update U counter (get_stat counter u + 1) in
    match table_recipes db !! recipe_id with
    | Some r =>
        (Ok (),
         {| table_users := counted;
            table_recipes :=
              <[recipe_id := apply_fields (status_fields new_status) r]> (table_recipes db);
            writes := writes db
                      ++ [increment; recipes_update recipe_id (status_fields new_status)] |})
    | None =>
        (Raise HTTPError,
         {| table_users := counted; table_recipes := table_recipes db;
            writes := writes db ++ [increment] |})
    end.
Proof.
  intros Hd HU Hu. unfold decision in Hd.
  assert ((new_status = approved ∧ counter = numApproved_field)
          ∨ (new_status = rejected ∧ counter = numRejected_field)) as Hcase.
  { destruct (String.eqb action "approve"); [left; by simplify_eq|].
    destruct (String.eqb action "reject"); [right; by simplify_eq|done]. }
  unfold update_recipe_status. simpl. rewrite HU.
  destruct Hcase as [[-> ->]|[-> ->]]; simpl;
    unfold mbind, M_bind; rewrite update_user_stats_run, Hu; simpl;
    rewrite table_recipes_update_run; simpl;
    destruct (table_recipes db !! recipe_id); simpl; by rewrite <- ?app_assoc.
Qed.

(** A Decide by the linked reviewer on a recipe whose owner is a user of the table:
    what [review_recipe] answers and writes, whatever the status of the recipe. *)
Lemma review_recipe_decides s req recipe_id db V r U u new_status counter answer :
  logged_in_as "reviewer" s = Some V →
  table_recipes db !! recipe_id = Some r →
  hd EmptyString (reviewerID r) = V →
  head (userID r) = Some U →
  truthy U = true →
  table_users db !! U = Some u →
  decision (form_action req) = Some (new_status, counter, answer) →
  review_recipe s req recipe_id db
  = (Ok answer,
     {| table_users :=
          <[U := set_stat counter (get_stat counter u + 1) u]> (table_users db);
        table_recipes :=
          <[recipe_id := apply_fields (status_fields new_status) r]> (table_recipes db);
        writes := writes db
                  ++ [users_update U counter (get_stat counter u + 1);
                      recipes_update recipe_id (status_fields new_status)] |}).
Proof.
  intros Hs Hr HV HU Htruthy Hu Hd.
  unfold review_recipe. rewrite Hs.
  unfold mbind, M_bind at 1.
  unfold get_recipe_by_id, try_except, table_recipes_get, mbind, M_bind at 1.
  rewrite Hr. simpl. rewrite HV, bool_decide_false by (by intros []).
  rewrite HU. simpl. rewrite Htruthy. simpl.
  pose proof Hd as Hd'. unfold decision in Hd'.
  destruct (String.eqb (form_action req) "approve") eqn:Ha.
  - simplify_eq. unfold mbind, M_bind.
    rewrite (update_recipe_status_run _ _ _ _ _ _ _ _ Hd Htruthy Hu), Hr. done.
  - destruct (String.eqb (form_action req) "reject") eqn:Hb; [|done].
    simplify_eq. unfold mbind, M_bind.
    rewrite (update_recipe_status_run _ _ _ _ _ _ _ _ Hd Htruthy Hu), Hr. done.
Qed.

Lemma apply_status_fields_same r :
  apply_fields (status_fields (status r)) r = r.
Proof. by destruct r. Qed.

(** C1, as the code has it. [review_recipe] does not read the status of the
    recipe. A Decide by the linked reviewer on a recipe that is already approved
    or rejected, with the same outcome again, is answered like a first decision
    (there is no conflict refusal); it leaves the Recipes table as it was, so the
    status and the reviewer link do not change, and it increments the owner's
    counter of that outcome by one once more, leaving every other user and the
    owner's other fields as they were. *)
Theorem decide_again_increments_again (s : session) (req : request)
    (recipe_id V U : string) (db : airtable) (r : recipe) (u : user)
    (counter : stat) (answer : response) :
  logged_in_as "reviewer" s = Some V →
  table_recipes db !! recipe_id = Some r →
  hd EmptyString (reviewerID r) = V →
  head (userID r) = Some U →
  truthy U = true →
  table_users db !! U = Some u →
  status r = approved ∨ status r = rejected →
  decision (form_action req) = Some (status r, counter, answer) →
  ∃ db' : airtable,
    review_recipe s req recipe_id db = (Ok answer, db')
    ∧ table_recipes db' = table_recipes db
    ∧ table_users db'
      = <[U := set_stat counter (get_stat counter u + 1) u]> (table_users db).
Proof.
  intros Hs Hr HV HU Htruthy Hu _ Hd.
  eexists. split.
  - by apply (review_recipe_decides s req recipe_id db V r U u _ _ _ Hs Hr HV HU Htruthy Hu Hd).
  - simpl. split; [|done].
    rewrite apply_status_fields_same. by apply insert_id.
Qed.

(** C6, as the code has it. Within one Decide the increment of the owner's counter
    is the first write and the write of the recipe's status is the last: the log
    grows by the counter update followed by the status update. When the status
    write fails (the recipe identifier does not resolve at that moment),
    [update_recipe_status] raises with the counter already incremented and the
    status not written. *)
Theorem decide_increments_before_status_write (recipe_id U action : string)
    (new_status : Status) (counter : stat) (answer : response)
    (u : user) (db : airtable) :
  decision action = Some (new_status, counter, answer) →
  truthy U = true →
  table_users db !! U = Some u →
  let outcome := update_recipe_status recipe_id new_status (Some U) db in
  let increment := users_update U counter (get_stat counter u + 1) in
  match table_recipes db !! recipe_id with
  | Some r =>
      outcome.1 = Ok ()
      ∧ writes outcome.2
        = writes db ++ [increment; recipes_update recipe_id (status_fields new_status)]
  | None =>
      outcome.1 = Raise HTTPError
      ∧ writes outcome.2 = writes db ++ [increment]
      ∧ table_recipes outcome.2 = table_recipes db
      ∧ get_stat counter <$> table_users outcome.2 !! U = Some (get_stat counter u + 1)
  end.
Proof.
  intros Hd Htruthy Hu. simpl.
  rewrite (update_recipe_status_run _ _ _ _ _ _ _ _ Hd Htruthy Hu).
  destruct (table_recipes db !! recipe_id); simpl; [done|].
  repeat split. rewrite lookup_insert_eq. simpl.
  unfold decision in Hd.
  destruct (String.eqb action "approve"); [by simplify_eq|].
  destruct (String.eqb action "reject"); by simplify_eq.
Qed.

(** ** Resubmit *)

Lemma get_recipe_by_id_run recipe_id db :
  get_recipe_by_id recipe_id db
  = (Ok (pair recipe_id <$> table_recipes db !! recipe_id), db).
Proof.
  unfold get_recipe_by_id, try_except, table_recipes_get, mbind, M_bind, mret, M_ret.
  by destruct (table_recipes db !! recipe_id).
Qed.

(** The three ways [edit_rejected_recipe] goes for a logged-in user: the refusal,
    the [KeyError] of a rejected recipe without owner, and the resubmission (or,
    on GET, the edit page). *)
Lemma edit_rejected_recipe_run s req recipe_id db user_id :
  logged_in_as "user" s = Some user_id →
  edit_rejected_recipe s req recipe_id db
  = match table_recipes db !! recipe_id with
    | None => (Ok access_denied, db)
    | Some r =>
        if bool_decide (status r ≠ rejected) then (Ok access_denied, db)
        else match userID r with
             | [] => (Raise KeyError, db)
             | owner :: _ =>
                 if bool_decide (owner ≠ user_id) then (Ok access_denied, db)
                 else if bool_decide (method req = POST) then
                   let fields :=
                     resubmit_fields (form_is_vegan req) (form_ingredients req) in
                   (Ok recipe_resubmitted,
                    {| table_users := table_users db;
                       table_recipes :=
                         <[recipe_id := apply_fields fields r]> (table_recipes db);
                       writes := writes db ++ [recipes_update recipe_id fields] |})
                 else (Ok ([], render_template "edit_rejected_recipe.html"), db)
             end
    end.
Proof.
  intros Hs. unfold edit_rejected_recipe. rewrite Hs.
  unfold mbind, M_bind at 1. rewrite get_recipe_by_id_run.
  destruct (table_recipes db !! recipe_id) as [r|] eqn:Hr; simpl; [|done].
  unfold mbind, M_bind at 1.
  destruct (bool_decide (status r ≠ rejected)); simpl; [done|].
  unfold first_userID. destruct (userID r) as [|owner owners]; simpl; [done|].
  unfold mbind, M_bind at 1. simpl.
  destruct (bool_decide (owner ≠ user_id)); simpl; [done|].
  destruct (bool_decide (method req = POST)); simpl; [|done].
  unfold mbind, M_bind, update_rejected_recipe.
  rewrite table_recipes_update_run, Hr. done.
Qed.

(** C7. For a logged-in submitter [U]: a Resubmit is confirmed only when the recipe
    is rejected and its owner is [U]; on a recipe that is not rejected, or whose
    owner is another user, it is refused with the "access denied" message and the
    store stays as it was; and a Resubmit (POST) by the owner of a rejected recipe
    writes the new vegan flag and ingredient list, an empty reviewer link and
    status unassigned on that recipe, and nothing else: the Users table, with its
    counters, is the same. *)
Theorem resubmit_only_rejected_by_owner (s : session) (req : request)
    (recipe_id U : string) (db : airtable) :
  logged_in_as "user" s = Some U →
  (∀ db' : airtable,
      edit_rejected_recipe s req recipe_id db = (Ok recipe_resubmitted, db') →
      ∃ r : recipe, table_recipes db !! recipe_id = Some r
                    ∧ status r = rejected ∧ head (userID r) = Some U)
  ∧ (∀ r : recipe,
        table_recipes db !! recipe_id = Some r →
        status r ≠ rejected
        ∨ (∃ owner : string, head (userID r) = Some owner ∧ owner ≠ U) →
        edit_rejected_recipe s req recipe_id db = (Ok access_denied, db))
  ∧ (∀ r : recipe,
        table_recipes db !! recipe_id = Some r →
        status r = rejected →
        head (userID r) = Some U →
        method req = POST →
        edit_rejected_recipe s req recipe_id db
        = (Ok recipe_resubmitted,
           {| table_users := table_users db;
              table_recipes :=
                <[recipe_id := {| userID := userID r; status := unassigned;
                                  price := price r; price_2x := price_2x r;
                                  price_3x := price_3x r;
                                  is_vegan := form_is_vegan req;
                                  ingredients := form_ingredients req;
                                  reviewerID := [] |}]> (table_recipes db);
              writes := writes db
                        ++ [recipes_update recipe_id
                              (resubmit_fields (form_is_vegan req) (form_ingredients req))]
           |})).
Proof.
  intros Hs. rewrite (edit_rejected_recipe_run _ _ _ _ _ Hs).
  split; [|split].
  - intros db'. destruct (table_recipes db !! recipe_id) as [r|]; [|done].
    case_bool_decide as Hst; [done|].
    destruct (userID r) as [|owner owners] eqn:Ho; [done|].
    case_bool_decide as Hown; [done|].
    case_bool_decide; [|done].
    intros _. exists r. repeat split.
    + by destruct (decide (status r = rejected)).
    + rewrite Ho. simpl. f_equal. by destruct (decide (owner = U)).
  - intros r -> [Hst|(owner & Ho & Hne)].
    + by rewrite bool_decide_true.
    + case_bool_decide; [done|].
      destruct (userID r) as [|owner' owners]; simplify_eq/=.
      by rewrite bool_decide_true.
  - intros r -> Hst Ho Hpost.
    rewrite bool_decide_false by (by intros []).
    destruct (userID r) as [|owner owners] eqn:Hr; simplify_eq/=.
    rewrite bool_decide_false by (by intros []).
    rewrite Hpost. unfold apply_fields. simpl. by rewrite Hr.
Qed.

(** ** The price fields *)

Lemma prices_kept_refl db : prices_kept db db.
Proof. intros recipe_id r Hr. by exists r. Qed.

Lemma prices_kept_trans db1 db2 db3 :
  prices_kept db1 db2 → prices_kept db2 db3 → prices_kept db1 db3.
Proof.
  intros H12 H23 recipe_id r Hr.
  destruct (H12 _ _ Hr) as (r2 & Hr2 & ? & ? & ?).
  destruct (H23 _ _ Hr2) as (r3 & Hr3 & ? & ? & ?).
  exists r3. repeat split; congruence.
Qed.

Create HintDb keeps discriminated.

Lemma keeps_prices_ret {A} (a : A) : keeps_prices (mret a).
Proof. intros db. apply prices_kept_refl. Qed.

Lemma keeps_prices_raise {A} (e : exn) : keeps_prices (raise (A:=A) e).
Proof. intros db. apply prices_kept_refl. Qed.

Lemma keeps_prices_bind {A B} (m : M A) (k : A → M B) :
  keeps_prices m → (∀ a, keeps_prices (k a)) → keeps_prices (m ≫= k).
Proof.
  intros Hm Hk db. unfold mbind, M_bind. specialize (Hm db).
  destruct (m db) as [[a|e] db1]; [|done].
  eapply prices_kept_trans; [done|]. apply Hk.
Qed.

Lemma keeps_prices_try_except {A} (body : M A) (handler : exn → M A) :
  keeps_prices body → (∀ e, keeps_prices (handler e)) →
  keeps_prices (try_except body handler).
Proof.
  intros Hb Hh db. unfold try_except. specialize (Hb db).
  destruct (body db) as [[a|e] db1]; [done|].
  eapply prices_kept_trans; [done|]. apply Hh.
Qed.

Lemma keeps_prices_users_get record_id : keeps_prices (table_users_get record_id).
Proof.
  intros db. unfold table_users_get.
  destruct (table_users db !! record_id); apply prices_kept_refl.
Qed.

Lemma keeps_prices_users_update record_id s n :
  keeps_prices (table_users_update record_id s n).
Proof.
  intros db recipe_id r Hr. unfold table_users_update.
  destruct (table_users db !! record_id); by exists r.
Qed.

Lemma keeps_prices_recipes_get record_id : keeps_prices (table_recipes_get record_id).
Proof.
  intros db. unfold table_recipes_get.
  destruct (table_recipes db !! record_id); apply prices_kept_refl.
Qed.

Lemma keeps_prices_recipes_all s : keeps_prices (table_recipes_all s).
Proof. intros db. apply prices_kept_refl. Qed.

Lemma keeps_prices_recipes_create new_recipe :
  keeps_prices (table_recipes_create new_recipe).
Proof.
  intros db recipe_id r Hr. exists r. simpl.
  rewrite lookup_insert_ne; [done|].
  intros <-. by rewrite fresh_string_fresh in Hr.
Qed.

Lemma keeps_prices_recipes_update record_id fields :
  no_price_field fields → keeps_prices (table_recipes_update record_id fields).
Proof.
  intros (Hp & Hp2 & Hp3) db recipe_id r Hr. unfold table_recipes_update.
  destruct (table_recipes db !! record_id) as [old|] eqn:Hold; simpl; [|by exists r].
  destruct (decide (record_id = recipe_id)) as [->|Hne].
  - rewrite lookup_insert_eq. eexists. split; [done|].
    simplify_eq. unfold apply_fields. simpl. by rewrite Hp, Hp2, Hp3.
  - rewrite lookup_insert_ne by done. by exists r.
Qed.

#[local] Hint Resolve keeps_prices_ret keeps_prices_raise keeps_prices_bind
  keeps_prices_try_except keeps_prices_users_get keeps_prices_users_update
  keeps_prices_recipes_get keeps_prices_recipes_all keeps_prices_recipes_create
  keeps_prices_recipes_update : keeps.

Ltac keeps :=
  repeat first
    [ progress intros
    | apply keeps_prices_bind
    | apply keeps_prices_try_except
    | apply keeps_prices_recipes_update; by repeat split
    | solve [auto with keeps]
    | match goal with
      | |- keeps_prices (match ?x with _ => _ end) => destruct x
      | |- keeps_prices (if ?b then _ else _) => destruct b
      | |- keeps_prices (let '(_, _) := ?x in _) => destruct x
      end ].

Lemma keeps_prices_update_user_stats user_id counter :
  keeps_prices (update_user_stats user_id counter).
Proof. unfold update_user_stats, get_user_by_id. keeps. Qed.

Lemma keeps_prices_create_recipe user_id price_input vegan ingredient_ids :
  keeps_prices (create_recipe user_id price_input vegan ingredient_ids).
Proof. unfold create_recipe. keeps. Qed.

Lemma keeps_prices_update_recipe_status recipe_id new_status user_id :
  keeps_prices (update_recipe_status recipe_id new_status user_id).
Proof.
  unfold update_recipe_status. pose proof keeps_prices_update_user_stats. keeps.
Qed.

Lemma keeps_prices_handle op : keeps_prices (handle op).
Proof.
  pose proof keeps_prices_create_recipe.
  pose proof keeps_prices_update_recipe_status.
  destruct op; simpl;
    unfold add_recipe, edit_rejected_recipe, assign_recipe, review_recipe,
      get_recipes_by_user, get_recipes_by_reviewer, get_recipe_by_id,
      update_rejected_recipe, assign_recipe_to_reviewer, first_userID;
    keeps.
Qed.

Lemma prices_kept_along ops db0 db :
  prices_kept db0 db →
  Forall (prices_kept db0) (states_along (map handle ops) db).
Proof.
  revert db. induction ops as [|op ops IH]; intros db Hkept; simpl.
  - by constructor.
  - constructor; [done|]. apply IH.
    eapply prices_kept_trans; [done|]. apply keeps_prices_handle.
Qed.

(** A Submit (POST) by a logged-in user without rejected recipe: the recipe is
    created when the price parses, whatever its sign; when it does not parse,
    nothing is created, and the answer is the same confirmation. *)
Lemma add_recipe_run s req db user_id :
  logged_in_as "user" s = Some user_id →
  query (get_recipes_by_user user_id rejected) db = [] →
  method req = POST →
  add_recipe s req db
  = (Ok recipe_submitted,
     match float_of_string (form_price req) with
     | Some p =>
         let record_id := fresh_string "rec" (table_recipes db) in
         {| table_users := table_users db;
            table_recipes :=
              <[record_id := {| userID := [user_id]; status := unassigned;
                                price := p; price_2x := (p * 2)%float;
                                price_3x := (p * 3)%float;
                                is_vegan := form_is_vegan req;
                                ingredients := form_ingredients req;
                                reviewerID := [] |}]> (table_recipes db);
            writes := writes db ++ [recipes_create record_id] |}
     | None => db
     end).
Proof.
  intros Hs Hfree Hpost. unfold add_recipe. rewrite Hs.
  unfold mbind, M_bind at 1. rewrite get_recipes_by_user_run, Hfree. simpl.
  rewrite Hpost. simpl. unfold mbind, M_bind. rewrite create_recipe_run.
  by destruct (float_of_string (form_price req)).
Qed.

(** The binary64 product does not depend on the order of its factors. *)
Lemma SFmul_comm prec emax x y : SFmul prec emax x y = SFmul prec emax y x.
Proof.
  destruct x as [sx|sx| |sx mx ex], y as [sy|sy| |sy my ey]; simpl;
    rewrite ?(Bool.xorb_comm sx sy), ?(Pos.mul_comm mx my), ?(Z.add_comm ex ey);
    reflexivity.
Qed.

Lemma float_mul_comm (x y : float) : (x * y)%float = (y * x)%float.
Proof.
  rewrite <- (SF2Prim_Prim2SF (x * y)), <- (SF2Prim_Prim2SF (y * x)).
  f_equal. rewrite !mul_spec. apply SFmul_comm.
Qed.

(** C8. A successful Submit whose price input parses as [p] creates one recipe,
    under an identifier the table did not use, with [price = p],
    [price_2x = 2 * p] and [price_3x = 3 * p] (binary64 products, as Python
    computes [price_float * 2] and [price_float * 3]); and in every store that any
    sequence of later operations (Submit, Resubmit, Assign, Decide, by anyone) goes
    through, that recipe is still there with the same three values. *)
Theorem price_multiples_set_at_creation_only (s : session) (req : request)
    (U : string) (p : float) (db : airtable) :
  logged_in_as "user" s = Some U →
  query (get_recipes_by_user U rejected) db = [] →
  method req = POST →
  float_of_string (form_price req) = Some p →
  ∃ recipe_id : string,
    table_recipes db !! recipe_id = None
    ∧ (add_recipe s req db).1 = Ok recipe_submitted
    ∧ (∃ r : recipe,
          table_recipes (add_recipe s req db).2 !! recipe_id = Some r
          ∧ price r = p ∧ price_2x r = (2 * p)%float ∧ price_3x r = (3 * p)%float)
    ∧ ∀ later : list operation,
        Forall (λ db', ∃ r' : recipe,
                   table_recipes db' !! recipe_id = Some r'
                   ∧ price r' = p ∧ price_2x r' = (2 * p)%float
                   ∧ price_3x r' = (3 * p)%float)
               (states_along (map handle later) (add_recipe s req db).2).
Proof.
  intros Hs Hfree Hpost Hp.
  exists (fresh_string "rec" (table_recipes db)).
  rewrite (add_recipe_run _ _ _ _ Hs Hfree Hpost), Hp. simpl.
  rewrite (float_mul_comm 2 p), (float_mul_comm 3 p).
  split; [apply fresh_string_fresh|]. split; [done|]. split.
  - eexists. rewrite lookup_insert_eq. done.
  - intros later.
    eapply Forall_impl; [apply prices_kept_along, prices_kept_refl|].
    intros db' Hkept.
    destruct (Hkept (fresh_string "rec" (table_recipes db))
                {| userID := [U]; status := unassigned; price := p;
                   price_2x := (p * 2)%float; price_3x := (p * 3)%float;
                   is_vegan := form_is_vegan req;
                   ingredients := form_ingredients req; reviewerID := [] |})
      as (r' & Hr' & ? & ? & ?).
    { simpl. apply lookup_insert_eq. }
    by exists r'.
Qed.

(** C5, as the code has it. Submit checks that the price input parses as a number
    and nothing more. For a logged-in submitter without rejected recipe, a Submit
    (POST) never raises; when the price input does not parse, [create_recipe]
    returns no record and the store stays as it was; when it parses as [p], be [p]
    positive, zero or negative, a recipe with price [p] is created. *)
Theorem submit_checks_parsing_only (s : session) (req : request) (U : string)
    (db : airtable) :
  logged_in_as "user" s = Some U →
  query (get_recipes_by_user U rejected) db = [] →
  method req = POST →
  match float_of_string (form_price req) with
  | None =>
      create_recipe U (form_price req) (form_is_vegan req) (form_ingredients req) db
      = (Ok None, db)
      ∧ (add_recipe s req db).2 = db
  | Some p =>
      ∃ recipe_id : string,
        table_recipes db !! recipe_id = None
        ∧ price <$> table_recipes (add_recipe s req db).2 !! recipe_id = Some p
  end
  ∧ ∃ answer : response, (add_recipe s req db).1 = Ok answer.
Proof.
  intros Hs Hfree Hpost.
  rewrite (add_recipe_run _ _ _ _ Hs Hfree Hpost), create_recipe_run.
  split; [|by eexists].
  destruct (float_of_string (form_price req)) as [p|]; [|done].
  exists (fresh_string "rec" (table_recipes db)).
  split; [apply fresh_string_fresh|]. simpl. by rewrite lookup_insert_eq.
Qed.

(** ** Decide with another action *)

(** C10. A Decide request whose action is neither ['approve'] nor ['reject']
    writes nothing: the store after it, with its two tables and its log of writes,
    is the store before it, for the linked reviewer as for any other session. So
    the status and the reviewer link of the recipe and the counters of its owner
    are unchanged. *)
Theorem decide_other_action_writes_nothing (s : session) (req : request)
    (recipe_id : string) (db : airtable) :
  form_action req ≠ "approve" →
  form_action req ≠ "reject" →
  (review_recipe s req recipe_id db).2 = db.
Proof.
  intros Ha Hr. apply String.eqb_neq in Ha, Hr.
  unfold review_recipe. destruct (logged_in_as "reviewer" s) as [V|]; [|done].
  unfold mbind, M_bind at 1. rewrite get_recipe_by_id_run.
  destruct (table_recipes db !! recipe_id) as [r|]; simpl; [|done].
  destruct (bool_decide _); [done|].
  destruct (negb _); [done|].
  by rewrite Ha, Hr.
Qed.

(** ** Assign, one call after the other and overlapping *)

(** [assign_recipe] is its check followed by its write. *)
Lemma assign_recipe_split s recipe_id db :
  assign_recipe s recipe_id db
  = (assign_recipe_check s ≫= assign_recipe_write recipe_id) db.
Proof.
  unfold assign_recipe, assign_recipe_check, assign_recipe_write.
  destruct (logged_in_as "reviewer" s) as [R|]; [|done].
  cbv [mbind M_bind mret M_ret get_recipes_by_reviewer table_recipes_all].
  by destruct (non_empty _).
Qed.

Lemma assign_recipe_check_free s R db :
  logged_in_as "reviewer" s = Some R →
  query (get_recipes_by_reviewer R inProgress) db = [] →
  assign_recipe_check s db = (Ok (inr R), db).
Proof.
  intros Hs Hfree. unfold assign_recipe_check. rewrite Hs.
  unfold mbind, M_bind. by rewrite get_recipes_by_reviewer_run, Hfree.
Qed.

Lemma assign_recipe_write_run recipe_id R db :
  assign_recipe_write recipe_id (inr R) db
  = match table_recipes db !! recipe_id with
    | Some r =>
        (Ok recipe_assigned,
         {| table_users := table_users db;
            table_recipes :=
              <[recipe_id := apply_fields (assign_fields R) r]> (table_recipes db);
            writes := writes db ++ [recipes_update recipe_id (assign_fields R)] |})
    | None => (Raise HTTPError, db)
    end.
Proof.
  unfold assign_recipe_write, assign_recipe_to_reviewer, mbind, M_bind.
  rewrite table_recipes_update_run. by destruct (table_recipes db !! recipe_id).
Qed.

Lemma assign_recipe_succeeded s R recipe_id db :
  logged_in_as "reviewer" s = Some R →
  (assign_recipe s recipe_id db).1 = Ok recipe_assigned →
  ∃ r : recipe,
    table_recipes (assign_recipe s recipe_id db).2 !! recipe_id = Some r
    ∧ reviewed_with R inProgress (recipe_id, r).
Proof.
  intros Hs.
  destruct (query (get_recipes_by_reviewer R inProgress) db) as [|x l] eqn:Hq.
  - rewrite (assign_recipe_free _ _ _ _ Hs Hq).
    destruct (table_recipes db !! recipe_id) as [r|]; [|done].
    intros _. simpl. eexists. rewrite lookup_insert_eq. split; [done|].
    split; simpl; [apply list_elem_of_singleton|]; done.
  - rewrite (assign_recipe_refused _ _ _ _ Hs) by (by rewrite Hq). done.
Qed.

(** C9, as the code has it. Nothing serializes Assign: the handler is a query
    followed by an update. When two Assign calls for the same reviewer [R] run one
    after the other, they never both succeed: once the first is confirmed, the
    second is refused with "already in progress" and writes nothing. When the two
    calls overlap, so that both checks run before either write, and [R] holds no
    recipe in progress, both are confirmed and both targets end in progress,
    linked to [R]. *)
Theorem assign_exclusive_only_in_sequence (s1 s2 : session)
    (R recipe_id1 recipe_id2 : string) (db : airtable) :
  logged_in_as "reviewer" s1 = Some R →
  logged_in_as "reviewer" s2 = Some R →
  ((assign_recipe s1 recipe_id1 db).1 = Ok recipe_assigned →
   assign_recipe s2 recipe_id2 (assign_recipe s1 recipe_id1 db).2
   = (Ok already_in_progress, (assign_recipe s1 recipe_id1 db).2))
  ∧ (query (get_recipes_by_reviewer R inProgress) db = [] →
     is_Some (table_recipes db !! recipe_id1) →
     is_Some (table_recipes db !! recipe_id2) →
     let overlapping :=
       assign_recipe_overlapping s1 recipe_id1 s2 recipe_id2 db in
     overlapping.1 = Ok (recipe_assigned, recipe_assigned)
     ∧ ∀ recipe_id : string,
         recipe_id = recipe_id1 ∨ recipe_id = recipe_id2 →
         ∃ r : recipe,
           table_recipes overlapping.2 !! recipe_id = Some r
           ∧ status r = inProgress ∧ reviewerID r = [R]).
Proof.
  intros Hs1 Hs2. split.
  - intros Hok.
    destruct (assign_recipe_succeeded _ _ _ _ Hs1 Hok) as (r & Hr & Hheld).
    apply (assign_recipe_refused _ _ _ _ Hs2).
    rewrite query_by_reviewer. by eapply filter_hit_nonempty.
  - intros Hfree [r1 Hr1] [r2 Hr2] overlapping. subst overlapping.
    unfold assign_recipe_overlapping. cbv [mbind M_bind].
    rewrite (assign_recipe_check_free _ _ _ Hs1 Hfree).
    rewrite (assign_recipe_check_free _ _ _ Hs2 Hfree).
    rewrite assign_recipe_write_run, Hr1.
    rewrite assign_recipe_write_run. simpl.
    destruct (decide (recipe_id1 = recipe_id2)) as [->|Hne].
    + rewrite lookup_insert_eq. simpl. split; [done|].
      intros recipe_id [->| ->]; eexists; by rewrite lookup_insert_eq.
    + rewrite lookup_insert_ne, Hr2 by done. simpl. split; [done|].
      intros recipe_id [->| ->]; eexists.
      * rewrite lookup_insert_ne, lookup_insert_eq by done. done.
      * by rewrite lookup_insert_eq.
Qed.

(** * The scenarios of the specification, and the claims at concrete inputs *)

Import Scenario.

(** Scenario A. *)
Example scenario_A_submit :
  add_recipe U1 (submit_form "10") db0
  = (Ok recipe_submitted,
     {| table_users := {[ "recU1" := ann ]};
        table_recipes := {[ "rec" := recipe_10 unassigned [] ]};
        writes := [recipes_create "rec"] |}).
Proof. reflexivity. Qed.

Example scenario_A_assign :
  (assign_recipe V1 "rec" submitted).1 = Ok recipe_assigned
  ∧ table_recipes assigned !! "rec" = Some (recipe_10 inProgress ["recV1"]).
Proof. split; reflexivity. Qed.

Example scenario_A_decide :
  (review_recipe V1 (decide_form "approve") "rec" assigned).1 = Ok recipe_approved
  ∧ table_recipes decided_approved !! "rec" = Some (recipe_10 approved ["recV1"])
  ∧ table_users decided_approved !! "recU1" = Some ann_approved_once.
Proof. repeat split; reflexivity. Qed.

(** Scenario B. *)
Example scenario_B :
  table_recipes decided_rejected !! "rec" = Some (recipe_10 rejected ["recV1"])
  ∧ numRejected <$> table_users decided_rejected !! "recU1" = Some 1
  ∧ add_recipe U1 (submit_form "10") decided_rejected
    = (Ok has_rejected_recipe, decided_rejected).
Proof. repeat split; reflexivity. Qed.

(** Scenario C. *)
Example scenario_C :
  table_recipes resubmitted !! "rec"
  = Some {| userID := ["recU1"]; status := unassigned; price := 10%float;
            price_2x := 20%float; price_3x := 30%float; is_vegan := true;
            ingredients := ["recI2"]; reviewerID := [] |}
  ∧ table_users resubmitted = table_users decided_rejected
  ∧ (add_recipe U1 (submit_form "10") resubmitted).1 = Ok recipe_submitted
  ∧ size (table_recipes (add_recipe U1 (submit_form "10") resubmitted).2) = 2%nat.
Proof. repeat split; reflexivity. Qed.

(** Scenario D. *)
Example scenario_D :
  status <$> table_recipes one_assigned !! "rec0" = Some unassigned
  ∧ assign_recipe V1 "rec0" one_assigned = (Ok already_in_progress, one_assigned).
Proof. split; reflexivity. Qed.

(** C1 at a concrete input: the recipe of scenario A is approved and linked to V1;
    V1 approves it again. The answer is the confirmation "Recipe approved!" and
    the owner's [numApproved] goes from 1 to 2. *)
Lemma decide_again_counterexample :
  table_recipes decided_approved !! "rec" = Some (recipe_10 approved ["recV1"])
  ∧ numApproved <$> table_users decided_approved !! "recU1" = Some 1
  ∧ (review_recipe V1 (decide_form "approve") "rec" decided_approved).1
    = Ok recipe_approved
  ∧ numApproved
      <$> table_users (review_recipe V1 (decide_form "approve") "rec" decided_approved).2
          !! "recU1"
    = Some 2.
Proof. repeat split; reflexivity. Qed.

(** The amended C1 at the input of the counterexample. *)
Lemma decide_again_increments_again_witness :
  ∃ db' : airtable,
    review_recipe V1 (decide_form "approve") "rec" decided_approved
    = (Ok recipe_approved, db')
    ∧ table_recipes db' = table_recipes decided_approved
    ∧ table_users db'
      = <["recU1" := set_stat numApproved_field
                       (get_stat numApproved_field ann_approved_once + 1)
                       ann_approved_once]> (table_users decided_approved).
Proof.
  apply (decide_again_increments_again V1 (decide_form "approve") "rec" "recV1" "recU1"
           decided_approved (recipe_10 approved ["recV1"]) ann_approved_once
           numApproved_field recipe_approved);
    first [reflexivity | left; reflexivity].
Defined.

(** C2 at a concrete input: the approved recipe of scenario A, linked to V1, is
    assigned by the reviewer V2, who holds nothing: the Assign is confirmed and the
    recipe is in progress again, linked to V2. *)
Lemma assign_approved_counterexample :
  table_recipes decided_approved !! "rec" = Some (recipe_10 approved ["recV1"])
  ∧ (assign_recipe V2 "rec" decided_approved).1 = Ok recipe_assigned
  ∧ table_recipes (assign_recipe V2 "rec" decided_approved).2 !! "rec"
    = Some (recipe_10 inProgress ["recV2"]).
Proof. repeat split; reflexivity. Qed.

(** The amended C2 at the input of the counterexample. *)
Lemma assign_whatever_the_status_witness :
  assign_recipe V2 "rec" decided_approved
  = (Ok recipe_assigned,
     {| table_users := table_users decided_approved;
        table_recipes :=
          <["rec" := recipe_10 inProgress ["recV2"]]> (table_recipes decided_approved);
        writes := writes decided_approved
                  ++ [recipes_update "rec" (assign_fields "recV2")] |}).
Proof.
  apply (assign_whatever_the_status V2 "recV2" "rec" decided_approved
           (recipe_10 approved ["recV1"])); reflexivity.
Defined.

(** C3 at a reachable store: U1 submits two recipes, and V1 takes and rejects
    one after the other. Every call is confirmed, and U1 ends with two rejected
    recipes. *)
Lemma two_rejected_recipes_counterexample :
  map (λ db, length (query (get_recipes_by_user "recU1" rejected) db))
      (states_along (map handle Cases.two_rejections) db0)
  = [0; 0; 0; 0; 1; 1; 2]%nat
  ∧ (handle (Decide V1 (decide_form "reject") "rec0")
       (foldl (λ db op, (handle op db).2) db0 (take 5 Cases.two_rejections))).1
    = Ok recipe_rejected.
Proof. split; reflexivity. Qed.

(** The amended C3 on two Submit calls after the rejection of scenario B. *)
Lemma submit_keeps_rejected_count_witness :
  Forall (λ db', length (query (get_recipes_by_user "recU1" rejected) db')
                 = length (query (get_recipes_by_user "recU1" rejected) decided_rejected))
         (states_along (map (add_recipe U1) [submit_form "10"; submit_form "7"])
            decided_rejected)
  ∧ (∀ (req : request) (db' : airtable),
        query (get_recipes_by_user "recU1" rejected) db' ≠ [] →
        add_recipe U1 req db' = (Ok has_rejected_recipe, db')).
Proof.
  apply (submit_keeps_rejected_count U1 "recU1" [submit_form "10"; submit_form "7"]
           decided_rejected). reflexivity.
Defined.

(** C4 on two Assign calls of V1, for the two recipes of scenario D. *)
Lemma assign_at_most_one_in_progress_witness :
  Forall (λ db', (length (query (get_recipes_by_reviewer "recV1" inProgress) db') ≤ 1)%nat)
         (states_along (map (assign_recipe V1) ["rec"; "rec0"]) two_submitted)
  ∧ (∀ (recipe_id : string) (db' : airtable),
        query (get_recipes_by_reviewer "recV1" inProgress) db' ≠ [] →
        assign_recipe V1 recipe_id db' = (Ok already_in_progress, db')).
Proof.
  apply (assign_at_most_one_in_progress V1 "recV1" ["rec"; "rec0"] two_submitted);
    [reflexivity | vm_compute; lia].
Defined.

(** [float] at the edges of its grammar, as CPython answers: the byte 28 is not
    stripped; Arabic-Indic and full-width digits and a no-break space are read;
    underscores go between digits only; a value out of range is an infinity. *)
Example float_of_string_edges :
  float_of_string (String (ascii_of_nat 28) "10") = None
  ∧ float_of_string "١٢" = Some 12%float
  ∧ float_of_string (String (ascii_of_nat 194) (String (ascii_of_nat 160) "10"))
    = Some 10%float
  ∧ float_of_string "１２.５" = Some 12.5%float
  ∧ float_of_string " 1_0 " = Some 10%float
  ∧ float_of_string "1__0" = None
  ∧ float_of_string "1 0" = None
  ∧ float_of_string "-.5e1" = Some (-5)%float
  ∧ float_of_string "1e400" = Some infinity
  ∧ float_of_string "-Infinity" = Some neg_infinity
  ∧ float_of_string "9007199254740993" = Some 9007199254740992%float.
Proof. repeat split; reflexivity. Qed.

(** C5 at concrete inputs: the price inputs "0" and "-5" do not parse as a
    positive number, and Submit creates a recipe with each of them; the input
    "abc" does not parse, nothing is created, and Submit answers with its
    confirmation. *)
Lemma submit_nonpositive_price_counterexample :
  (float_of_string "0" = Some 0%float
   ∧ (add_recipe U1 (submit_form "0") db0).1 = Ok recipe_submitted
   ∧ price <$> table_recipes (add_recipe U1 (submit_form "0") db0).2 !! "rec"
     = Some 0%float)
  ∧ (float_of_string "-5" = Some (-5)%float
     ∧ (add_recipe U1 (submit_form "-5") db0).1 = Ok recipe_submitted
     ∧ price <$> table_recipes (add_recipe U1 (submit_form "-5") db0).2 !! "rec"
       = Some (-5)%float)
  ∧ (float_of_string "abc" = None
     ∧ add_recipe U1 (submit_form "abc") db0 = (Ok recipe_submitted, db0)).
Proof. repeat split; reflexivity. Qed.

(** The amended C5 at the price input "-5". *)
Lemma submit_checks_parsing_only_witness :
  (∃ recipe_id : string,
      table_recipes db0 !! recipe_id = None
      ∧ price <$> table_recipes (add_recipe U1 (submit_form "-5") db0).2 !! recipe_id
        = Some (-5)%float)
  ∧ ∃ answer : response, (add_recipe U1 (submit_form "-5") db0).1 = Ok answer.
Proof.
  apply (submit_checks_parsing_only U1 (submit_form "-5") "recU1" db0); reflexivity.
Defined.

(** C6 at a concrete input: in the Decide of scenario A the counter update is
    logged before the status update, not after it; and a status write that fails
    leaves the counter incremented. *)
Lemma status_write_before_increment_counterexample :
  writes (review_recipe V1 (decide_form "approve") "rec" assigned).2
  = writes assigned
    ++ [users_update "recU1" numApproved_field 1;
        recipes_update "rec" (status_fields approved)]
  ∧ (update_recipe_status "recGone" approved (Some "recU1") assigned).1
    = Raise HTTPError
  ∧ numApproved <$> table_users assigned !! "recU1" = Some 0
  ∧ numApproved
      <$> table_users (update_recipe_status "recGone" approved (Some "recU1") assigned).2
          !! "recU1"
    = Some 1.
Proof. repeat split; reflexivity. Qed.

(** The amended C6 at the Decide of scenario A. *)
Lemma decide_increments_before_status_write_witness :
  (update_recipe_status "rec" approved (Some "recU1") assigned).1 = Ok ()
  ∧ writes (update_recipe_status "rec" approved (Some "recU1") assigned).2
    = writes assigned
      ++ [users_update "recU1" numApproved_field (get_stat numApproved_field ann + 1);
          recipes_update "rec" (status_fields approved)].
Proof.
  apply (decide_increments_before_status_write "rec" "recU1" "approve" approved
           numApproved_field recipe_approved ann assigned); reflexivity.
Defined.

(** C7 at the Resubmit of scenario C. *)
Lemma resubmit_only_rejected_by_owner_witness :
  (∀ db' : airtable,
      edit_rejected_recipe U1 edit "rec" decided_rejected
      = (Ok recipe_resubmitted, db') →
      ∃ r : recipe, table_recipes decided_rejected !! "rec" = Some r
                    ∧ status r = rejected ∧ head (userID r) = Some "recU1")
  ∧ (∀ r : recipe,
        table_recipes decided_rejected !! "rec" = Some r →
        status r ≠ rejected
        ∨ (∃ owner : string, head (userID r) = Some owner ∧ owner ≠ "recU1") →
        edit_rejected_recipe U1 edit "rec" decided_rejected
        = (Ok access_denied, decided_rejected))
  ∧ (∀ r : recipe,
        table_recipes decided_rejected !! "rec" = Some r →
        status r = rejected →
        head (userID r) = Some "recU1" →
        method edit = POST →
        edit_rejected_recipe U1 edit "rec" decided_rejected
        = (Ok recipe_resubmitted,
           {| table_users := table_users decided_rejected;
              table_recipes :=
                <["rec" := {| userID := userID r; status := unassigned;
                              price := price r; price_2x := price_2x r;
                              price_3x := price_3x r;
                              is_vegan := form_is_vegan edit;
                              ingredients := form_ingredients edit;
                              reviewerID := [] |}]> (table_recipes decided_rejected);
              writes := writes decided_rejected
                        ++ [recipes_update "rec"
                              (resubmit_fields (form_is_vegan edit) (form_ingredients edit))]
           |})).
Proof.
  apply (resubmit_only_rejected_by_owner U1 edit "rec" "recU1" decided_rejected).
  reflexivity.
Defined.

(** C8 at a Submit with the price input "4.5". *)
Lemma price_multiples_set_at_creation_only_witness :
  ∃ recipe_id : string,
    table_recipes db0 !! recipe_id = None
    ∧ (add_recipe U1 (submit_form "4.5") db0).1 = Ok recipe_submitted
    ∧ (∃ r : recipe,
          table_recipes (add_recipe U1 (submit_form "4.5") db0).2 !! recipe_id = Some r
          ∧ price r = 4.5%float ∧ price_2x r = (2 * 4.5)%float
          ∧ price_3x r = (3 * 4.5)%float)
    ∧ ∀ later : list operation,
        Forall (λ db', ∃ r' : recipe,
                   table_recipes db' !! recipe_id = Some r'
                   ∧ price r' = 4.5%float ∧ price_2x r' = (2 * 4.5)%float
                   ∧ price_3x r' = (3 * 4.5)%float)
               (states_along (map handle later) (add_recipe U1 (submit_form "4.5") db0).2).
Proof.
  apply (price_multiples_set_at_creation_only U1 (submit_form "4.5") "recU1" 4.5%float db0);
    reflexivity.
Defined.

(** C9 at a concrete input: two recipes are unassigned and V1 holds nothing; two
    Assign requests of V1 overlap, one for each recipe. Both are confirmed, and V1
    has two recipes in progress. *)
Lemma assign_overlapping_counterexample :
  query (get_recipes_by_reviewer "recV1" inProgress) two_submitted = []
  ∧ (assign_recipe_overlapping V1 "rec" V1 "rec0" two_submitted).1
    = Ok (recipe_assigned, recipe_assigned)
  ∧ length (query (get_recipes_by_reviewer "recV1" inProgress)
                  (assign_recipe_overlapping V1 "rec" V1 "rec0" two_submitted).2)
    = 2%nat.
Proof. repeat split; reflexivity. Qed.

(** The amended C9 at the input of the counterexample. *)
Lemma assign_exclusive_only_in_sequence_witness :
  ((assign_recipe V1 "rec" two_submitted).1 = Ok recipe_assigned →
   assign_recipe V1 "rec0" (assign_recipe V1 "rec" two_submitted).2
   = (Ok already_in_progress, (assign_recipe V1 "rec" two_submitted).2))
  ∧ (query (get_recipes_by_reviewer "recV1" inProgress) two_submitted = [] →
     is_Some (table_recipes two_submitted !! "rec") →
     is_Some (table_recipes two_submitted !! "rec0") →
     let overlapping := assign_recipe_overlapping V1 "rec" V1 "rec0" two_submitted in
     overlapping.1 = Ok (recipe_assigned, recipe_assigned)
     ∧ ∀ recipe_id : string,
         recipe_id = "rec" ∨ recipe_id = "rec0" →
         ∃ r : recipe,
           table_recipes overlapping.2 !! recipe_id = Some r
           ∧ status r = inProgress ∧ reviewerID r = ["recV1"]).
Proof.
  apply (assign_exclusive_only_in_sequence V1 V1 "recV1" "rec" "rec0" two_submitted);
    reflexivity.
Defined.

(** C10 at the action "postpone" on the recipe in progress of scenario A. *)
Lemma decide_other_action_writes_nothing_witness :
  (review_recipe V1 (decide_form "postpone") "rec" assigned).2 = assigned.
Proof.
  apply (decide_other_action_writes_nothing V1 (decide_form "postpone") "rec" assigned);
    discriminate.
Defined.

(** * Beyond the claims: the handlers in full *)

(** ** What each handler does, case by case *)

Lemma add_recipe_cases s req db :
  add_recipe s req db
  = match logged_in_as "user" s with
    | None => (Ok (sent_to_login (Submit s req)), db)
    | Some U =>
        if non_empty (query (get_recipes_by_user U rejected) db)
        then (Ok has_rejected_recipe, db)
        else if bool_decide (method req = POST)
        then (Ok recipe_submitted,
              (create_recipe U (form_price req) (form_is_vegan req)
                 (form_ingredients req) db).2)
        else (Ok ([], render_template "add_recipe.html"), db)
    end.
Proof.
  unfold add_recipe. destruct (logged_in_as "user" s) as [U|]; [|done].
  unfold mbind, M_bind at 1. rewrite get_recipes_by_user_run.
  destruct (non_empty _); [done|].
  destruct (bool_decide (method req = POST)); [|done].
  unfold mbind, M_bind. rewrite create_recipe_run.
  by destruct (float_of_string (form_price req)).
Qed.

(** [update_recipe_status] for a decision: the counter update, which never raises,
    and then the status update. *)
Lemma update_recipe_status_cases recipe_id new_status counter answer action U db :
  decision action = Some (new_status, counter, answer) →
  truthy U = true →
  update_recipe_status recipe_id new_status (Some U) db
  = table_recipes_update recipe_id (status_fields new_status)
      (update_user_stats U counter db).2.
Proof.
  intros Hd HU. unfold decision in Hd.
  assert ((new_status = approved ∧ counter = numApproved_field)
          ∨ (new_status = rejected ∧ counter = numRejected_field)) as Hcase.
  { destruct (String.eqb action "approve"); [left; by simplify_eq|].
    destruct (String.eqb action "reject"); [right; by simplify_eq|done]. }
  unfold update_recipe_status. simpl. rewrite HU.
  destruct Hcase as [[-> ->]|[-> ->]]; simpl;
    unfold mbind, M_bind; rewrite update_user_stats_run;
    by destruct (table_users db !! U).
Qed.

Lemma review_recipe_cases s req recipe_id db V :
  logged_in_as "reviewer" s = Some V →
  review_recipe s req recipe_id db
  = match table_recipes db !! recipe_id with
    | None => (Ok not_assigned_to_you, db)
    | Some r =>
        if bool_decide (hd EmptyString (reviewerID r) ≠ V)
        then (Ok not_assigned_to_you, db)
        else
          match head (userID r) with
          | Some U =>
              if truthy U then
                match decision (form_action req) with
                | Some (new_status, counter, answer) =>
                    let counted := (update_user_stats U counter db).2 in
                    (Ok answer,
                     {| table_users := table_users counted;
                        table_recipes :=
                          <[recipe_id := apply_fields (status_fields new_status) r]>
                            (table_recipes db);
                        writes := writes counted
                                  ++ [recipes_update recipe_id (status_fields new_status)]
                     |})
                | None => (Ok ([], redirect reviewer_dashboard), db)
                end
              else (Ok not_linked_to_user, db)
          | None => (Ok not_linked_to_user, db)
          end
    end.
Proof.
  intros Hs. unfold review_recipe. rewrite Hs.
  unfold mbind, M_bind at 1. rewrite get_recipe_by_id_run.
  destruct (table_recipes db !! recipe_id) as [r|] eqn:Hr; simpl; [|done].
  destruct (bool_decide _); [done|].
  destruct (head (userID r)) as [U|] eqn:HU; simpl; [|done].
  destruct (truthy U) eqn:Htruthy; simpl; [|done].
  destruct (decision (form_action req)) as [[[new_status counter] answer]|] eqn:Hd.
  - assert (table_recipes (update_user_stats U counter db).2 = table_recipes db) as Hsame.
    { rewrite update_user_stats_run. by destruct (table_users db !! U). }
    pose proof Hd as Hd'. unfold decision in Hd'.
    destruct (String.eqb (form_action req) "approve").
    + simplify_eq. unfold mbind, M_bind.
      rewrite (update_recipe_status_cases _ _ _ _ _ _ _ Hd Htruthy).
      rewrite table_recipes_update_run, Hsame, Hr. done.
    + destruct (String.eqb (form_action req) "reject"); [|done].
      simplify_eq. unfold mbind, M_bind.
      rewrite (update_recipe_status_cases _ _ _ _ _ _ _ Hd Htruthy).
      rewrite table_recipes_update_run, Hsame, Hr. done.
  - unfold decision in Hd.
    destruct (String.eqb (form_action req) "approve"); [done|].
    by destruct (String.eqb (form_action req) "reject").
Qed.

(** ** The role gate *)

Lemma handle_not_logged_in op db :
  logged_in_as (role_of op) (session_of op) = None →
  handle op db = (Ok (sent_to_login op), db).
Proof.
  intros Hs. destruct op; simpl in *;
    unfold add_recipe, edit_rejected_recipe, assign_recipe, review_recipe;
    by rewrite Hs.
Qed.

(** X1. A request whose session does not carry the role its route asks for (no
    account in the session, or the other role) is answered with the route's
    flashed redirect to the login page, and the store is left as it was; this
    holds for Submit, Resubmit, Assign and Decide alike. *)
Theorem wrong_role_sent_to_login (op : operation) (db : airtable) :
  logged_in_as (role_of op) (session_of op) = None →
  handle op db = (Ok (sent_to_login op), db).
Proof.
  destruct op as [s req|s req recipe_id|s recipe_id|s req recipe_id]; simpl;
    intros Hs.
  - unfold add_recipe. by rewrite Hs.
  - unfold edit_rejected_recipe. by rewrite Hs.
  - unfold assign_recipe. by rewrite Hs.
  - unfold review_recipe. by rewrite Hs.
Qed.

(** ** The state machine of the Recipes table *)

Lemma add_recipe_step s req db :
  step db (Submit s req) (table_recipes (add_recipe s req db).2).
Proof.
  rewrite add_recipe_cases.
  destruct (logged_in_as "user" s) as [U|] eqn:Hs; [|apply step_none].
  destruct (query (get_recipes_by_user U rejected) db) as [|x l] eqn:Hq; simpl;
    [|apply step_none].
  case_bool_decide as Hpost; [|apply step_none].
  rewrite create_recipe_run.
  destruct (float_of_string (form_price req)) as [p|] eqn:Hp; simpl;
    [by apply (step_submit db s req U p)|apply step_none].
Qed.

Lemma edit_rejected_recipe_step s req recipe_id db :
  step db (Resubmit s req recipe_id)
    (table_recipes (edit_rejected_recipe s req recipe_id db).2).
Proof.
  destruct (logged_in_as "user" s) as [U|] eqn:Hs;
    [|unfold edit_rejected_recipe; rewrite Hs; apply step_none].
  rewrite (edit_rejected_recipe_run _ _ _ _ _ Hs).
  destruct (table_recipes db !! recipe_id) as [r|] eqn:Hr; [|apply step_none].
  case_bool_decide as Hst; [apply step_none|].
  destruct (userID r) as [|owner owners] eqn:Ho; [apply step_none|].
  case_bool_decide as Hown; [apply step_none|].
  case_bool_decide as Hpost; [|apply step_none].
  simpl. apply (step_resubmit db s req recipe_id U r); try done.
  by rewrite Ho, Hown.
Qed.

Lemma assign_recipe_step s recipe_id db :
  step db (Assign s recipe_id) (table_recipes (assign_recipe s recipe_id db).2).
Proof.
  destruct (logged_in_as "reviewer" s) as [V|] eqn:Hs;
    [|unfold assign_recipe; rewrite Hs; apply step_none].
  destruct (query (get_recipes_by_reviewer V inProgress) db) as [|x l] eqn:Hq.
  - rewrite (assign_recipe_free _ _ _ _ Hs Hq).
    destruct (table_recipes db !! recipe_id) as [r|] eqn:Hr; [|apply step_none].
    simpl. by apply (step_assign db s recipe_id V r).
  - rewrite (assign_recipe_refused _ _ _ _ Hs) by (by rewrite Hq). apply step_none.
Qed.

Lemma review_recipe_step s req recipe_id db :
  step db (Decide s req recipe_id) (table_recipes (review_recipe s req recipe_id db).2).
Proof.
  destruct (logged_in_as "reviewer" s) as [V|] eqn:Hs;
    [|unfold review_recipe; rewrite Hs; apply step_none].
  rewrite (review_recipe_cases _ _ _ _ _ Hs).
  destruct (table_recipes db !! recipe_id) as [r|] eqn:Hr; [|apply step_none].
  case_bool_decide as HV; [apply step_none|].
  destruct (head (userID r)) as [U|] eqn:HU; [|apply step_none].
  destruct (truthy U) eqn:Htruthy; [|apply step_none].
  destruct (decision (form_action req)) as [[[new_status counter] answer]|] eqn:Hd;
    [|apply step_none].
  simpl. by apply (step_decide db s req recipe_id V U r new_status counter answer).
Qed.

Lemma handle_step op db : step db op (table_recipes (handle op db).2).
Proof.
  destruct op; simpl;
    auto using add_recipe_step, edit_rejected_recipe_step, assign_recipe_step,
      review_recipe_step.
Qed.

(** X2. Whatever the operation, its session and its request, the Recipes table
    after it is the table before it or differs from it by exactly one write, of
    one of four kinds: a new unassigned recipe without reviewer under an unused
    identifier (Submit by a user without rejected recipe, price parsed); the edits,
    status unassigned and an empty reviewer link on a rejected recipe of the acting
    user (Resubmit); status inProgress and the acting reviewer as link on an
    existing recipe, when that reviewer holds nothing in progress (Assign); status
    approved or rejected on a recipe whose first linked reviewer is the acting one
    (Decide). No operation removes a record. *)
Theorem every_operation_is_a_step (op : operation) (db : airtable) :
  step db op (table_recipes (handle op db).2).
Proof.
  destruct op as [s req|s req recipe_id|s recipe_id|s req recipe_id]; simpl.
  - apply add_recipe_step.
  - apply edit_rejected_recipe_step.
  - apply assign_recipe_step.
  - apply review_recipe_step.
Qed.

(** ** Invariants of every run *)

Lemma decision_status action new_status counter answer :
  decision action = Some (new_status, counter, answer) →
  (new_status = approved ∧ counter = numApproved_field ∧ answer = recipe_approved)
  ∨ (new_status = rejected ∧ counter = numRejected_field ∧ answer = recipe_rejected).
Proof.
  unfold decision.
  destruct (String.eqb action "approve"); [left; by simplify_eq|].
  destruct (String.eqb action "reject"); [right; by simplify_eq|done].
Qed.

Lemma logged_in_as_session_user wanted s id :
  logged_in_as wanted s = Some id → session_user s = Some id.
Proof.
  unfold logged_in_as. destruct (session_user s); [|done].
  by case_bool_decide; intros; simplify_eq.
Qed.

Lemma step_in_progress_count db op recipes' R :
  step db op recipes' →
  (length (filter (reviewed_with R inProgress) (map_to_list (table_recipes db))) ≤ 1)%nat →
  (length (filter (reviewed_with R inProgress) (map_to_list recipes')) ≤ 1)%nat.
Proof.
  intros Hstep Hone.
  destruct Hstep as [op|s req U p _ _ _ _|s req recipe_id U r _ Hr _ _ _
                    |s recipe_id V r _ Hfree Hr
                    |s req recipe_id V U r new_status counter answer _ Hr _ _ _ Hd].
  - done.
  - rewrite length_filter_insert_fresh by apply fresh_string_fresh.
    unfold hit. rewrite decide_False; [done|]. by intros [_ ?].
  - pose proof (length_filter_insert_over (reviewed_with R inProgress) _ _ _
                  (apply_fields (resubmit_fields (form_is_vegan req)
                                   (form_ingredients req)) r) Hr) as Hlen.
    unfold hit in Hlen at 2. rewrite decide_False in Hlen by (by intros [_ ?]). lia.
  - pose proof (length_filter_insert_over (reviewed_with R inProgress) _ _ _
                  (apply_fields (assign_fields V) r) Hr) as Hlen.
    destruct (decide (V = R)) as [->|Hne].
    + rewrite query_by_reviewer in Hfree. rewrite Hfree in Hlen.
      unfold hit in Hlen at 2. destruct (decide _) in Hlen; simpl in Hlen; lia.
    + unfold hit in Hlen at 2. rewrite decide_False in Hlen; [lia|].
      intros [Hin _]. simpl in Hin. by apply list_elem_of_singleton in Hin.
  - pose proof (length_filter_insert_over (reviewed_with R inProgress) _ _ _
                  (apply_fields (status_fields new_status) r) Hr) as Hlen.
    unfold hit in Hlen at 2. rewrite decide_False in Hlen; [lia|].
    intros [_ Hst]. simpl in Hst.
    destruct (decision_status _ _ _ _ Hd) as [(-> & _)|(-> & _)]; done.
Qed.

(** X3. One after the other, the operations keep a reviewer to one recipe in
    progress: along every sequence of operations of any kind (Submit, Resubmit,
    Assign, Decide), by any sessions, a reviewer [R] who starts with at most one
    recipe in progress has at most one in every store the run goes through. *)
Theorem one_in_progress_along_every_run (R : string) (ops : list operation)
    (db : airtable) :
  (length (query (get_recipes_by_reviewer R inProgress) db) ≤ 1)%nat →
  Forall (λ db', (length (query (get_recipes_by_reviewer R inProgress) db') ≤ 1)%nat)
         (states_along (map handle ops) db).
Proof.
  revert db. induction ops as [|op ops IH]; intros db Hone; simpl.
  - by constructor.
  - constructor; [done|]. apply IH.
    rewrite query_by_reviewer in *.
    by eapply step_in_progress_count; [apply handle_step|].
Qed.

Lemma step_links_fit db op recipes' :
  step db op recipes' →
  session_user (session_of op) ≠ Some EmptyString →
  links_fit db →
  ∀ recipe_id r, recipes' !! recipe_id = Some r → link_fits_status r.
Proof.
  intros Hstep Hid Hfit recipe_id r'.
  destruct Hstep as [op|s req U p _ _ _ _|s req rid U r _ Hr _ _ _
                    |s rid V r _ _ Hr
                    |s req rid V U r new_status counter answer Hs Hr HV _ _ Hd].
  - apply Hfit.
  - destruct (decide (fresh_string "rec" (table_recipes db) = recipe_id)) as [->|Hne].
    + rewrite lookup_insert_eq. intros; simplify_eq. by split.
    + rewrite lookup_insert_ne by done. apply Hfit.
  - destruct (decide (rid = recipe_id)) as [->|Hne].
    + rewrite lookup_insert_eq. intros; simplify_eq. by split.
    + rewrite lookup_insert_ne by done. apply Hfit.
  - destruct (decide (rid = recipe_id)) as [->|Hne].
    + rewrite lookup_insert_eq. intros; simplify_eq. split; [done|]. by exists V.
    + rewrite lookup_insert_ne by done. apply Hfit.
  - destruct (decide (rid = recipe_id)) as [->|Hne].
    + rewrite lookup_insert_eq. intros; simplify_eq.
      destruct (Hfit _ _ Hr) as [Hun Hlinked]. simpl in Hid.
      apply logged_in_as_session_user in Hs.
      assert (status r ≠ unassigned) as Hst.
      { intros Hst. rewrite (Hun Hst) in Hs. simpl in Hs. congruence. }
      split; simpl.
      * intros ->. by destruct (decision_status _ _ _ _ Hd) as [(? & _)|(? & _)].
      * intros _. by apply Hlinked.
    + rewrite lookup_insert_ne by done. apply Hfit.
Qed.

(** X4. The reviewer link follows the status. When every acting session carries
    a non-empty account identifier, as the identifiers of the store are, every run
    of operations keeps this: an unassigned recipe has no linked reviewer, and a
    recipe in progress, approved or rejected has exactly one. *)
Theorem links_fit_along_every_run (ops : list operation) (db : airtable) :
  Forall (λ op, session_user (session_of op) ≠ Some EmptyString) ops →
  links_fit db →
  Forall links_fit (states_along (map handle ops) db).
Proof.
  revert db. induction ops as [|op ops IH]; intros db Hids Hfit; simpl.
  - by constructor.
  - apply Forall_cons in Hids as [Hid Hids].
    constructor; [done|]. apply IH; [done|].
    intros recipe_id r.
    by eapply step_links_fit; [apply handle_step| |].
Qed.

Lemma owners_kept_refl db : owners_kept db db.
Proof. intros recipe_id r Hr. by exists r. Qed.

Lemma owners_kept_trans db1 db2 db3 :
  owners_kept db1 db2 → owners_kept db2 db3 → owners_kept db1 db3.
Proof.
  intros H12 H23 recipe_id r Hr.
  destruct (H12 _ _ Hr) as (r2 & Hr2 & ?).
  destruct (H23 _ _ Hr2) as (r3 & Hr3 & ?).
  exists r3. split; congruence.
Qed.

Lemma owners_kept_handle op db : owners_kept db (handle op db).2.
Proof.
  intros recipe_id r0 Hr0.
  destruct (handle_step op db)
    as [op|s req U p _ _ _ _|s req rid U r _ Hr _ _ _|s rid V r _ _ Hr
       |s req rid V U r new_status counter answer _ Hr _ _ _ _].
  - by exists r0.
  - exists r0. rewrite lookup_insert_ne; [done|].
    intros <-. by rewrite fresh_string_fresh in Hr0.
  - destruct (decide (rid = recipe_id)) as [->|Hne].
    + rewrite lookup_insert_eq. eexists. split; [done|]. by simplify_eq.
    + rewrite lookup_insert_ne by done. by exists r0.
  - destruct (decide (rid = recipe_id)) as [->|Hne].
    + rewrite lookup_insert_eq. eexists. split; [done|]. by simplify_eq.
    + rewrite lookup_insert_ne by done. by exists r0.
  - destruct (decide (rid = recipe_id)) as [->|Hne].
    + rewrite lookup_insert_eq. eexists. split; [done|]. by simplify_eq.
    + rewrite lookup_insert_ne by done. by exists r0.
Qed.

(** X5. No operation deletes a recipe or changes who owns it: every recipe of a
    store is still there, with the same [userID] list, in every store that any
    run of operations goes through from it. *)
Theorem owners_kept_along_every_run (ops : list operation) (db : airtable) :
  Forall (owners_kept db) (states_along (map handle ops) db).
Proof.
  assert (∀ db', owners_kept db db' →
                 Forall (owners_kept db) (states_along (map handle ops) db')) as Hgen.
  { induction ops as [|op ops IH]; intros db' Hkept; simpl.
    - by constructor.
    - constructor; [done|]. apply IH.
      eapply owners_kept_trans; [done|]. apply owners_kept_handle. }
  apply Hgen, owners_kept_refl.
Qed.

Lemma counters_grow_refl db : counters_grow db db.
Proof. intros user_id u Hu. exists u. repeat split; (done || lia). Qed.

Lemma counters_grow_trans db1 db2 db3 :
  counters_grow db1 db2 → counters_grow db2 db3 → counters_grow db1 db3.
Proof.
  intros H12 H23 user_id u Hu.
  destruct (H12 _ _ Hu) as (u2 & Hu2 & ? & ? & ? & ? & ?).
  destruct (H23 _ _ Hu2) as (u3 & Hu3 & ? & ? & ? & ? & ?).
  exists u3. repeat split; (congruence || lia).
Qed.

Lemma counters_grow_update_user_stats U counter db :
  counters_grow db (update_user_stats U counter db).2.
Proof.
  rewrite update_user_stats_run.
  destruct (table_users db !! U) as [u0|] eqn:HU; [|apply counters_grow_refl].
  intros user_id u Hu. simpl.
  destruct (decide (U = user_id)) as [->|Hne].
  - rewrite lookup_insert_eq. eexists. split; [done|]. simplify_eq.
    destruct counter; simpl; repeat split; lia.
  - rewrite lookup_insert_ne by done. exists u. repeat split; (done || lia).
Qed.

(** The Users table after an operation: as before, or after one counter update. *)
Lemma handle_users_cases op db :
  table_users (handle op db).2 = table_users db
  ∨ ∃ U counter,
      table_users (handle op db).2 = table_users (update_user_stats U counter db).2.
Proof.
  destruct (logged_in_as (role_of op) (session_of op)) as [id|] eqn:Hs;
    [|rewrite (handle_not_logged_in _ _ Hs); by left].
  destruct op as [s req|s req recipe_id|s recipe_id|s req recipe_id]; simpl in *.
  - left. rewrite add_recipe_cases, Hs.
    destruct (non_empty _); [done|]. case_bool_decide; [|done].
    rewrite create_recipe_run. by destruct (float_of_string _).
  - left. rewrite (edit_rejected_recipe_run _ _ _ _ _ Hs).
    destruct (table_recipes db !! recipe_id) as [r|]; [|done].
    case_bool_decide; [done|]. destruct (userID r); [done|].
    case_bool_decide; [done|]. by case_bool_decide.
  - left.
    destruct (query (get_recipes_by_reviewer id inProgress) db) as [|x l] eqn:Hq.
    + rewrite (assign_recipe_free _ _ _ _ Hs Hq).
      by destruct (table_recipes db !! recipe_id).
    + by rewrite (assign_recipe_refused _ _ _ _ Hs) by (by rewrite Hq).
  - rewrite (review_recipe_cases _ _ _ _ _ Hs).
    destruct (table_recipes db !! recipe_id) as [r|]; [|by left].
    case_bool_decide; [by left|].
    destruct (head (userID r)) as [U|]; [|by left].
    destruct (truthy U); [|by left].
    destruct (decision (form_action req)) as [[[new_status counter] answer]|];
      [|by left].
    right. by exists U, counter.
Qed.

(** X6. No operation deletes a user, changes a name or an email, or lowers a
    counter: in every store that any run of operations goes through, every user of
    the first store is still there with the same name and email and with
    [numApproved] and [numRejected] at least what they were. *)
Theorem counters_grow_along_every_run (ops : list operation) (db : airtable) :
  Forall (counters_grow db) (states_along (map handle ops) db).
Proof.
  assert (∀ op db', counters_grow db' (handle op db').2) as Hstep.
  { intros op db' user_id u Hu.
    destruct (handle_users_cases op db') as [->|(U & counter & ->)]; [|].
    - destruct (counters_grow_refl db' _ _ Hu) as (u' & ? & ?). by exists u'.
    - by apply counters_grow_update_user_stats. }
  assert (∀ db', counters_grow db db' →
                 Forall (counters_grow db) (states_along (map handle ops) db')) as Hgen.
  { induction ops as [|op ops IH]; intros db' Hgrow; simpl.
    - by constructor.
    - constructor; [done|]. apply IH.
      eapply counters_grow_trans; [done|]. apply Hstep. }
  apply Hgen, counters_grow_refl.
Qed.

(** ** The counters *)

(** X7. [update_user_stats] on a user of the table answers [True], adds exactly
    one to the named counter, keeps the other counter, the name and the email,
    and touches no other user and no recipe; on an identifier that is not in the
    table it answers [False] and leaves the store as it was (the error of the
    lookup is swallowed by [get_user_by_id]). *)
Theorem update_user_stats_adds_one (user_id : string) (counter : stat)
    (db : airtable) :
  match table_users db !! user_id with
  | Some u =>
      ∃ u' : user,
        (update_user_stats user_id counter db).1 = Ok true
        ∧ table_users (update_user_stats user_id counter db).2 !! user_id = Some u'
        ∧ get_stat counter u' = get_stat counter u + 1
        ∧ (∀ other : stat, other ≠ counter → get_stat other u' = get_stat other u)
        ∧ FirstName u' = FirstName u ∧ LastName u' = LastName u ∧ email u' = email u
        ∧ (∀ other_id : string,
              other_id ≠ user_id →
              table_users (update_user_stats user_id counter db).2 !! other_id
              = table_users db !! other_id)
        ∧ table_recipes (update_user_stats user_id counter db).2 = table_recipes db
  | None => update_user_stats user_id counter db = (Ok false, db)
  end.
Proof.
  rewrite update_user_stats_run.
  destruct (table_users db !! user_id) as [u|] eqn:Hu; [|done].
  eexists. simpl. rewrite lookup_insert_eq.
  split; [done|]. split; [done|].
  split; [by destruct counter|].
  split; [intros other Hne; by destruct counter, other|].
  split; [by destruct counter|]. split; [by destruct counter|].
  split; [by destruct counter|].
  split; [|done]. intros other_id Hne. by rewrite lookup_insert_ne.
Qed.

(** ** Decide *)

(** X8. A Decide by the linked reviewer with action ['approve'] or ['reject'], on
    a recipe whose owner is a user of the table, is confirmed; it writes the new
    status on that recipe and nothing else on it, adds exactly one to the owner's
    counter of that outcome and leaves the owner's other counter alone; every
    other recipe and every other user is as before. *)
Theorem decide_writes_status_and_counts_once (s : session) (req : request)
    (recipe_id V U : string) (db : airtable) (r : recipe) (u : user)
    (new_status : Status) (counter : stat) (answer : response) :
  logged_in_as "reviewer" s = Some V →
  table_recipes db !! recipe_id = Some r →
  hd EmptyString (reviewerID r) = V →
  head (userID r) = Some U →
  truthy U = true →
  table_users db !! U = Some u →
  decision (form_action req) = Some (new_status, counter, answer) →
  let after := (review_recipe s req recipe_id db).2 in
  (review_recipe s req recipe_id db).1 = Ok answer
  ∧ table_recipes after !! recipe_id
    = Some {| userID := userID r; status := new_status; price := price r;
              price_2x := price_2x r; price_3x := price_3x r;
              is_vegan := is_vegan r; ingredients := ingredients r;
              reviewerID := reviewerID r |}
  ∧ (∀ other : string,
        other ≠ recipe_id → table_recipes after !! other = table_recipes db !! other)
  ∧ (∃ u' : user,
        table_users after !! U = Some u'
        ∧ get_stat counter u' = get_stat counter u + 1
        ∧ ∀ other : stat, other ≠ counter → get_stat other u' = get_stat other u)
  ∧ (∀ other : string,
        other ≠ U → table_users after !! other = table_users db !! other).
Proof.
  intros Hs Hr HV HU Htruthy Hu Hd after. subst after.
  rewrite (review_recipe_decides s req recipe_id db V r U u _ _ _
             Hs Hr HV HU Htruthy Hu Hd). simpl.
  split; [done|]. split; [by rewrite lookup_insert_eq|].
  split; [intros other Hne; by rewrite lookup_insert_ne|].
  split.
  - eexists. rewrite lookup_insert_eq. split; [done|].
    split; [by destruct counter|]. intros other Hne. by destruct counter, other.
  - intros other Hne. by rewrite lookup_insert_ne.
Qed.

(** X9. A Decide is refused, with nothing written, when the recipe identifier
    does not resolve or the first linked reviewer of the recipe is not the acting
    reviewer (an unassigned recipe included): "This recipe is not assigned to you."
    When the reviewer is linked but the recipe has no owner, or an empty owner
    identifier: "Error: Recipe is not linked to a user." *)
Theorem decide_refusals (s : session) (req : request) (recipe_id V : string)
    (db : airtable) :
  logged_in_as "reviewer" s = Some V →
  match table_recipes db !! recipe_id with
  | None => review_recipe s req recipe_id db = (Ok not_assigned_to_you, db)
  | Some r =>
      (hd EmptyString (reviewerID r) ≠ V →
       review_recipe s req recipe_id db = (Ok not_assigned_to_you, db))
      ∧ (hd EmptyString (reviewerID r) = V →
         from_option truthy false (head (userID r)) = false →
         review_recipe s req recipe_id db = (Ok not_linked_to_user, db))
  end.
Proof.
  intros Hs. rewrite (review_recipe_cases _ _ _ _ _ Hs).
  destruct (table_recipes db !! recipe_id) as [r|]; [|done]. split.
  - intros HV. by rewrite bool_decide_true.
  - intros HV Hnone. rewrite bool_decide_false by (by intros []).
    destruct (head (userID r)) as [U|]; [|done]. simpl in Hnone. by rewrite Hnone.
Qed.

(** X10. When the owner named by the recipe is not a user of the table, a Decide
    by the linked reviewer is confirmed all the same and writes the status, and no
    counter anywhere is changed: the Users table is as before and the only write
    is the status update. *)
Theorem decide_with_unknown_owner (s : session) (req : request)
    (recipe_id V U : string) (db : airtable) (r : recipe)
    (new_status : Status) (counter : stat) (answer : response) :
  logged_in_as "reviewer" s = Some V →
  table_recipes db !! recipe_id = Some r →
  hd EmptyString (reviewerID r) = V →
  head (userID r) = Some U →
  truthy U = true →
  table_users db !! U = None →
  decision (form_action req) = Some (new_status, counter, answer) →
  review_recipe s req recipe_id db
  = (Ok answer,
     {| table_users := table_users db;
        table_recipes :=
          <[recipe_id := apply_fields (status_fields new_status) r]> (table_recipes db);
        writes := writes db ++ [recipes_update recipe_id (status_fields new_status)] |}).
Proof.
  intros Hs Hr HV HU Htruthy Hu Hd.
  rewrite (review_recipe_cases _ _ _ _ _ Hs), Hr.
  rewrite bool_decide_false by (by intros []).
  rewrite HU, Htruthy, Hd. simpl.
  by rewrite update_user_stats_run, Hu.
Qed.

(** ** The dashboards and the operations they offer *)

Lemma filter_insert_only_hit {V} (P : string * V → Prop) `{!∀ x, Decision (P x)}
    (m : gmap string V) k v :
  filter P (map_to_list m) = [] → P (k, v) →
  filter P (map_to_list (<[k:=v]> m)) = [(k, v)].
Proof.
  intros Hnone HP.
  assert (filter P (map_to_list (delete k m)) = []) as Hrest.
  { destruct (filter P (map_to_list (delete k m))) as [|[k' v'] rest] eqn:Hf; [done|].
    assert ((k', v') ∈ filter P (map_to_list (delete k m))) as Hin
      by (rewrite Hf; left).
    apply list_elem_of_filter in Hin as [HP' Hin].
    apply elem_of_map_to_list in Hin.
    assert ((k', v') ∈ filter P (map_to_list m)) as Hin'.
    { apply list_elem_of_filter. split; [done|]. apply elem_of_map_to_list.
      by eapply lookup_weaken, delete_subseteq. }
    rewrite Hnone in Hin'. by apply not_elem_of_nil in Hin'. }
  apply Permutation_singleton_r.
  rewrite <- (insert_delete_eq m k v).
  rewrite (map_to_list_insert (delete k m) k v) by apply lookup_delete_eq.
  by rewrite filter_cons_True, Hrest.
Qed.

Lemma filter_insert_last_hit {V} (P : string * V → Prop) `{!∀ x, Decision (P x)}
    (m : gmap string V) k old v :
  m !! k = Some old → P (k, old) → ¬ P (k, v) →
  (length (filter P (map_to_list m)) ≤ 1)%nat →
  filter P (map_to_list (<[k:=v]> m)) = [].
Proof.
  intros Hk Hold Hnew Hone.
  pose proof (length_filter_insert_over P m k old v Hk) as Hlen.
  unfold hit in Hlen. rewrite decide_True, decide_False in Hlen by done.
  apply nil_length_inv. lia.
Qed.

Lemma query_unassigned db :
  query get_unassigned_recipes db
  = filter (λ rec, status rec.2 = unassigned) (map_to_list (table_recipes db)).
Proof. reflexivity. Qed.

Lemma reviewer_dashboard_view_run s db V :
  logged_in_as "reviewer" s = Some V →
  reviewer_dashboard_view s db
  = let held := query (get_recipes_by_reviewer V inProgress) db in
    (Ok (inr (reviewer_dashboard_html
                (if non_empty held then head held else None)
                (if non_empty held then [] else query get_unassigned_recipes db)
                (non_empty held))),
     db).
Proof.
  intros Hs. unfold reviewer_dashboard_view. rewrite Hs.
  unfold mbind, M_bind at 1. rewrite get_recipes_by_reviewer_run. simpl.
  by destruct (non_empty _).
Qed.

Lemma user_dashboard_view_run s db U :
  logged_in_as "user" s = Some U →
  user_dashboard_view s db
  = let listed := query (get_recipes_by_user U rejected) db in
    (Ok (inr (user_dashboard_html listed (bool_decide (0 < length listed)%nat))), db).
Proof.
  intros Hs. unfold user_dashboard_view. rewrite Hs.
  unfold mbind, M_bind. by rewrite get_recipes_by_user_run.
Qed.

Lemma elem_of_filter_table {V} (P : string * V → Prop) `{!∀ x, Decision (P x)}
    (m : gmap string V) k v :
  (k, v) ∈ filter P (map_to_list m) ↔ m !! k = Some v ∧ P (k, v).
Proof. rewrite list_elem_of_filter, elem_of_map_to_list. tauto. Qed.

Lemma non_empty_filter_table {V} (P : string * V → Prop) `{!∀ x, Decision (P x)}
    (m : gmap string V) :
  filter P (map_to_list m) ≠ [] ↔ ∃ k v, m !! k = Some v ∧ P (k, v).
Proof.
  split.
  - destruct (filter P (map_to_list m)) as [|[k v] l] eqn:Hf; [done|]. intros _.
    exists k, v. apply (elem_of_filter_table P m k v). rewrite Hf. left.
  - intros (k & v & Hk & HP). by eapply filter_hit_nonempty.
Qed.

(** X11. The reviewer dashboard never writes, shows what the table holds and
    offers what Assign accepts. For a logged-in reviewer [V], [has_in_progress] is
    set exactly when some recipe of the table is in progress with [V] among its
    reviewers, and the recipe shown is such a recipe of the table. When it is set,
    no unassigned recipe is listed and every Assign of [V] is refused. When it is
    not, the list holds exactly the recipes of the table with status unassigned,
    each once, and the Assign of any of them is confirmed, after which the
    dashboard shows exactly that recipe, in progress and linked to [V], and lists
    nothing. *)
Theorem reviewer_dashboard_offers_what_assign_accepts (s : session) (V : string)
    (db : airtable) :
  logged_in_as "reviewer" s = Some V →
  ∃ (shown : option (string * recipe)) (listed : list (string * recipe)) (busy : bool),
    reviewer_dashboard_view s db
    = (Ok (inr (reviewer_dashboard_html shown listed busy)), db)
    ∧ (busy = true ↔
       ∃ (recipe_id : string) (r : recipe),
         table_recipes db !! recipe_id = Some r
         ∧ status r = inProgress ∧ V ∈ reviewerID r)
    ∧ (∀ (recipe_id : string) (r : recipe),
          shown = Some (recipe_id, r) →
          table_recipes db !! recipe_id = Some r
          ∧ status r = inProgress ∧ V ∈ reviewerID r)
    ∧ (busy = true →
       is_Some shown ∧ listed = []
       ∧ ∀ recipe_id : string,
           assign_recipe s recipe_id db = (Ok already_in_progress, db))
    ∧ (busy = false →
       shown = None
       ∧ NoDup listed
       ∧ (∀ (recipe_id : string) (r : recipe),
             (recipe_id, r) ∈ listed ↔
             table_recipes db !! recipe_id = Some r ∧ status r = unassigned)
       ∧ ∀ (recipe_id : string) (r : recipe),
           (recipe_id, r) ∈ listed →
           ∃ db' : airtable,
             assign_recipe s recipe_id db = (Ok recipe_assigned, db')
             ∧ reviewer_dashboard_view s db'
               = (Ok (inr (reviewer_dashboard_html
                             (Some (recipe_id, apply_fields (assign_fields V) r))
                             [] true)), db')).
Proof.
  intros Hs. rewrite (reviewer_dashboard_view_run _ _ _ Hs). simpl.
  pose proof (non_empty_filter_table (reviewed_with V inProgress) (table_recipes db))
    as Hsome.
  rewrite <- query_by_reviewer in Hsome.
  destruct (query (get_recipes_by_reviewer V inProgress) db) as [|x held] eqn:Hq;
    simpl; do 3 eexists; (split; [done|]).
  - split; [|split; [done|split; [done|]]].
    + split; [done|]. intros (recipe_id & r & Hr & Hst & HV).
      exfalso. apply Hsome; [|done]. exists recipe_id, r. by repeat split.
    + intros _. split; [done|]. rewrite query_unassigned.
      split; [apply NoDup_filter, NoDup_map_to_list|]. split.
      * intros recipe_id r.
        apply (elem_of_filter_table (λ rec, status rec.2 = unassigned)).
      * intros recipe_id r Hin.
        apply (elem_of_filter_table (λ rec, status rec.2 = unassigned)) in Hin
          as [Hin Hst].
        rewrite (assign_recipe_free _ _ _ _ Hs Hq), Hin. eexists. split; [done|].
        rewrite (reviewer_dashboard_view_run _ _ _ Hs). simpl.
        rewrite query_by_reviewer in *. simpl.
        rewrite (filter_insert_only_hit _ _ _ _ Hq); [done|].
        split; simpl; [by apply list_elem_of_singleton|done].
  - assert (x ∈ query (get_recipes_by_reviewer V inProgress) db) as Hx
      by (rewrite Hq; left).
    rewrite query_by_reviewer in Hx. destruct x as [k v].
    apply elem_of_filter_table in Hx as [Hk [HV Hst]]. simpl in *.
    split; [|split; [|split; [|done]]].
    + split; [|done]. intros _. by exists k, v.
    + intros recipe_id r ?. by simplify_eq.
    + intros _. split; [by eexists|]. split; [done|].
      intros recipe_id. apply (assign_recipe_refused _ _ _ _ Hs). by rewrite Hq.
Qed.

(** X12. The user dashboard never writes, shows what the table holds and agrees
    with Submit and Resubmit. For a logged-in user [U] it lists exactly the recipes
    of the table that are rejected and name [U] among their owners, each once, and
    [has_rejected] is set exactly when there is such a recipe. When it is set,
    every Submit of [U] is refused; when it is not, a Submit (POST) is confirmed.
    A listed recipe whose first owner is [U] is accepted by Resubmit (POST). *)
Theorem user_dashboard_agrees_with_submit (s : session) (U : string) (db : airtable) :
  logged_in_as "user" s = Some U →
  ∃ (listed : list (string * recipe)) (has_rejected : bool),
    user_dashboard_view s db = (Ok (inr (user_dashboard_html listed has_rejected)), db)
    ∧ NoDup listed
    ∧ (∀ (recipe_id : string) (r : recipe),
          (recipe_id, r) ∈ listed ↔
          table_recipes db !! recipe_id = Some r ∧ status r = rejected ∧ U ∈ userID r)
    ∧ (has_rejected = true ↔
       ∃ (recipe_id : string) (r : recipe),
         table_recipes db !! recipe_id = Some r ∧ status r = rejected ∧ U ∈ userID r)
    ∧ (has_rejected = true →
       ∀ req : request, add_recipe s req db = (Ok has_rejected_recipe, db))
    ∧ (has_rejected = false →
       ∀ req : request,
         method req = POST → (add_recipe s req db).1 = Ok recipe_submitted)
    ∧ ∀ (recipe_id : string) (r : recipe),
        (recipe_id, r) ∈ listed →
        head (userID r) = Some U →
        ∀ req : request,
          method req = POST →
          (edit_rejected_recipe s req recipe_id db).1 = Ok recipe_resubmitted.
Proof.
  intros Hs. rewrite (user_dashboard_view_run _ _ _ Hs). simpl.
  assert (∀ recipe_id r,
            (recipe_id, r) ∈ query (get_recipes_by_user U rejected) db ↔
            table_recipes db !! recipe_id = Some r ∧ status r = rejected ∧ U ∈ userID r)
    as Hlisted.
  { intros recipe_id r. rewrite query_by_user, elem_of_filter_table.
    unfold owned_with. simpl. tauto. }
  assert (bool_decide (0 < length (query (get_recipes_by_user U rejected) db))%nat = true
          ↔ query (get_recipes_by_user U rejected) db ≠ []) as Hflag.
  { rewrite bool_decide_eq_true.
    destruct (query (get_recipes_by_user U rejected) db); simpl; split;
      (done || lia). }
  do 2 eexists. split; [done|].
  split; [rewrite query_by_user; apply NoDup_filter, NoDup_map_to_list|].
  split; [done|]. split; [|split; [|split]].
  - rewrite Hflag, query_by_user, non_empty_filter_table.
    unfold owned_with. simpl. split.
    + intros (k & v & ? & ? & ?). by exists k, v.
    + intros (k & v & ? & ? & ?). by exists k, v.
  - intros Hsome req. apply Hflag in Hsome.
    by apply (add_recipe_refused _ _ _ _ Hs).
  - intros Hnone req Hpost.
    assert (query (get_recipes_by_user U rejected) db = []) as Hnil.
    { destruct (query (get_recipes_by_user U rejected) db) eqn:Hq; [done|].
      assert (false = true) as Habs by (rewrite <- Hnone; by apply Hflag). done. }
    by rewrite (add_recipe_run _ _ _ _ Hs Hnil Hpost).
  - intros recipe_id r Hin Hfirst req Hpost.
    apply Hlisted in Hin as (Hin & Hst & _).
    rewrite (edit_rejected_recipe_run _ _ _ _ _ Hs), Hin.
    rewrite bool_decide_false by (by intros []).
    destruct (userID r) as [|owner owners]; simplify_eq/=.
    rewrite bool_decide_false by (by intros []). by rewrite Hpost.
Qed.

(** ** How the operations follow one another *)

(** The Recipes table after a Decide that goes through. *)
Lemma review_recipe_recipes_after s req recipe_id db V r U new_status counter answer :
  logged_in_as "reviewer" s = Some V →
  table_recipes db !! recipe_id = Some r →
  hd EmptyString (reviewerID r) = V →
  head (userID r) = Some U →
  truthy U = true →
  decision (form_action req) = Some (new_status, counter, answer) →
  (review_recipe s req recipe_id db).1 = Ok answer
  ∧ table_recipes (review_recipe s req recipe_id db).2
    = <[recipe_id := apply_fields (status_fields new_status) r]> (table_recipes db).
Proof.
  intros Hs Hr HV HU Htruthy Hd.
  rewrite (review_recipe_cases _ _ _ _ _ Hs), Hr.
  rewrite bool_decide_false by (by intros []).
  by rewrite HU, Htruthy, Hd.
Qed.

(** X13. A rejection blocks the submitter. After a Decide with action ['reject']
    by the linked reviewer on a recipe that names [U] first among its owners,
    every Submit of [U] is refused with the "rejected recipe" message and writes
    nothing. *)
Theorem rejection_blocks_submit (reviewer submitter : session) (decide_req req : request)
    (recipe_id V U : string) (db : airtable) (r : recipe) :
  logged_in_as "reviewer" reviewer = Some V →
  logged_in_as "user" submitter = Some U →
  table_recipes db !! recipe_id = Some r →
  hd EmptyString (reviewerID r) = V →
  head (userID r) = Some U →
  truthy U = true →
  form_action decide_req = "reject" →
  let after := (review_recipe reviewer decide_req recipe_id db).2 in
  add_recipe submitter req after = (Ok has_rejected_recipe, after).
Proof.
  intros HsV HsU Hr HV HU Htruthy Haction after. subst after.
  assert (decision (form_action decide_req)
          = Some (rejected, numRejected_field, recipe_rejected)) as Hd
    by (by rewrite Haction).
  destruct (review_recipe_recipes_after _ _ _ _ _ _ _ _ _ _ HsV Hr HV HU Htruthy Hd)
    as [_ Hafter].
  apply (add_recipe_refused _ _ _ _ HsU).
  rewrite query_by_user, Hafter.
  eapply filter_hit_nonempty; [apply lookup_insert_eq|].
  split; simpl; [|done].
  destruct (userID r) as [|owner owners]; simplify_eq/=. left.
Qed.

(** X14. A Resubmit unblocks the submitter. When the only rejected recipe of [U]
    is one that names [U] first among its owners, then after its Resubmit (POST)
    [U] has no rejected recipe and the next Submit (POST) of [U] is confirmed. *)
Theorem resubmit_unblocks_submit (s : session) (edit_req req : request)
    (recipe_id U : string) (db : airtable) (r : recipe) :
  logged_in_as "user" s = Some U →
  query (get_recipes_by_user U rejected) db = [(recipe_id, r)] →
  head (userID r) = Some U →
  method edit_req = POST →
  method req = POST →
  let after := (edit_rejected_recipe s edit_req recipe_id db).2 in
  (edit_rejected_recipe s edit_req recipe_id db).1 = Ok recipe_resubmitted
  ∧ query (get_recipes_by_user U rejected) after = []
  ∧ (add_recipe s req after).1 = Ok recipe_submitted.
Proof.
  intros Hs Hq Hfirst Hpost Hpost' after. subst after.
  assert ((recipe_id, r) ∈ query (get_recipes_by_user U rejected) db) as Hin
    by (rewrite Hq; left).
  rewrite query_by_user in Hin.
  apply list_elem_of_filter in Hin as [Hold Hin].
  apply elem_of_map_to_list in Hin. pose proof Hold as [Hown Hst]. simpl in Hst.
  rewrite (edit_rejected_recipe_run _ _ _ _ _ Hs), Hin.
  rewrite bool_decide_false by (by intros []).
  destruct (userID r) as [|owner owners] eqn:Ho; simplify_eq/=.
  rewrite bool_decide_false by (by intros []). rewrite Hpost. simpl.
  split; [done|].
  assert (query (get_recipes_by_user U rejected)
            {| table_users := table_users db;
               table_recipes :=
                 <[recipe_id := apply_fields
                                  (resubmit_fields (form_is_vegan edit_req)
                                     (form_ingredients edit_req)) r]> (table_recipes db);
               writes := writes db
                         ++ [recipes_update recipe_id
                               (resubmit_fields (form_is_vegan edit_req)
                                  (form_ingredients edit_req))] |} = []) as Hnone.
  { rewrite query_by_user. simpl.
    apply (filter_insert_last_hit _ _ _ r); [done|done| |].
    - by intros [_ ?].
    - rewrite query_by_user in Hq. by rewrite Hq. }
  split; [done|]. by rewrite (add_recipe_run _ _ _ _ Hs Hnone Hpost').
Qed.

(** X15. A decision frees the reviewer. When a reviewer [R] with at most one
    recipe in progress decides the recipe they hold in progress, [R] holds nothing
    in progress afterwards, and an Assign of [R] for any recipe of the table is
    confirmed. *)
Theorem decision_frees_reviewer (s : session) (req : request)
    (recipe_id next_id R U : string) (db : airtable) (r : recipe)
    (new_status : Status) (counter : stat) (answer : response) :
  logged_in_as "reviewer" s = Some R →
  (length (query (get_recipes_by_reviewer R inProgress) db) ≤ 1)%nat →
  table_recipes db !! recipe_id = Some r →
  status r = inProgress →
  reviewerID r = [R] →
  head (userID r) = Some U →
  truthy U = true →
  decision (form_action req) = Some (new_status, counter, answer) →
  is_Some (table_recipes db !! next_id) →
  let after := (review_recipe s req recipe_id db).2 in
  query (get_recipes_by_reviewer R inProgress) after = []
  ∧ (assign_recipe s next_id after).1 = Ok recipe_assigned.
Proof.
  intros Hs Hone Hr Hst HR HU Htruthy Hd [r2 Hr2] after. subst after.
  assert (hd EmptyString (reviewerID r) = R) as HV by (by rewrite HR).
  destruct (review_recipe_recipes_after _ _ _ _ _ _ _ _ _ _ Hs Hr HV HU Htruthy Hd)
    as [_ Hafter].
  assert (query (get_recipes_by_reviewer R inProgress)
            (review_recipe s req recipe_id db).2 = []) as Hfree.
  { rewrite query_by_reviewer, Hafter. rewrite query_by_reviewer in Hone.
    apply (filter_insert_last_hit _ _ _ r); [done| | |done].
    - split; simpl; [rewrite HR; left|done].
    - intros [_ Hnew]. simpl in Hnew.
      by destruct (decision_status _ _ _ _ Hd) as [(-> & _)|(-> & _)]. }
  split; [done|].
  rewrite (assign_recipe_free _ _ _ _ Hs Hfree), Hafter.
  destruct (decide (recipe_id = next_id)) as [->|Hne].
  - by rewrite lookup_insert_eq.
  - by rewrite lookup_insert_ne, Hr2.
Qed.

(** X16. A submitted recipe reaches the reviewers. After a confirmed Submit whose
    price parses, [get_recipe_by_id] finds the new recipe under its identifier,
    [get_unassigned_recipes] lists it, and every recipe listed as unassigned
    before is still listed. *)
Theorem submitted_recipe_is_listed (s : session) (req : request) (U : string)
    (p : float) (db : airtable) :
  logged_in_as "user" s = Some U →
  query (get_recipes_by_user U rejected) db = [] →
  method req = POST →
  float_of_string (form_price req) = Some p →
  let after := (add_recipe s req db).2 in
  ∃ (recipe_id : string) (r : recipe),
    table_recipes db !! recipe_id = None
    ∧ get_recipe_by_id recipe_id after = (Ok (Some (recipe_id, r)), after)
    ∧ userID r = [U] ∧ status r = unassigned ∧ reviewerID r = []
    ∧ (recipe_id, r) ∈ query get_unassigned_recipes after
    ∧ ∀ rec : string * recipe,
        rec ∈ query get_unassigned_recipes db →
        rec ∈ query get_unassigned_recipes after.
Proof.
  intros Hs Hfree Hpost Hp after. subst after.
  rewrite (add_recipe_run _ _ _ _ Hs Hfree Hpost), Hp. simpl.
  do 2 eexists. split; [apply fresh_string_fresh|].
  rewrite get_recipe_by_id_run. simpl. rewrite lookup_insert_eq. simpl.
  split; [done|]. split; [done|]. split; [done|]. split; [done|].
  rewrite !query_unassigned. simpl. split.
  - apply list_elem_of_filter. split; [done|].
    apply elem_of_map_to_list, lookup_insert_eq.
  - intros [k v] Hin. apply list_elem_of_filter in Hin as [Hst Hin].
    apply elem_of_map_to_list in Hin.
    apply list_elem_of_filter. split; [done|]. apply elem_of_map_to_list.
    rewrite lookup_insert_ne; [done|].
    intros <-. by rewrite fresh_string_fresh in Hin.
Qed.

(** ** Edges of the handlers *)

(** X17. A GET of [add_recipe] or [edit_rejected_recipe] never writes: whatever
    the session and the store, the store after the request, with its log of
    writes, is the store before it. *)
Theorem get_requests_write_nothing (s : session) (req : request)
    (recipe_id : string) (db : airtable) :
  method req = GET →
  (add_recipe s req db).2 = db ∧ (edit_rejected_recipe s req recipe_id db).2 = db.
Proof.
  intros Hget. split.
  - rewrite add_recipe_cases. destruct (logged_in_as "user" s) as [U|]; [|done].
    destruct (non_empty _); [done|]. by rewrite Hget.
  - destruct (logged_in_as "user" s) as [U|] eqn:Hs.
    + rewrite (edit_rejected_recipe_run _ _ _ _ _ Hs).
      destruct (table_recipes db !! recipe_id) as [r|]; [|done].
      case_bool_decide; [done|]. destruct (userID r); [done|].
      case_bool_decide; [done|]. by rewrite Hget.
    + unfold edit_rejected_recipe. by rewrite Hs.
Qed.

(** X18. A rejected recipe without owner makes [edit_rejected_recipe] fail instead
    of refusing: for a logged-in user, on GET as on POST, the lookup
    [recipe['userID'][0]] raises [KeyError], and nothing is written. *)
Theorem edit_rejected_recipe_without_owner_raises (s : session) (req : request)
    (recipe_id U : string) (db : airtable) (r : recipe) :
  logged_in_as "user" s = Some U →
  table_recipes db !! recipe_id = Some r →
  status r = rejected →
  userID r = [] →
  edit_rejected_recipe s req recipe_id db = (Raise KeyError, db).
Proof.
  intros Hs Hr Hst Hnone.
  rewrite (edit_rejected_recipe_run _ _ _ _ _ Hs), Hr.
  rewrite bool_decide_false by (by intros []). by rewrite Hnone.
Qed.

(** X19. The home page sends a session where its dashboard will take it: to the
    user dashboard only when [user_dashboard] renders for that session, to the
    reviewer dashboard only when [reviewer_dashboard] renders for it, and to the
    login page only when both dashboards would send it there too. *)
Theorem index_agrees_with_dashboards (s : session) (db : airtable) :
  match (index s).2 with
  | redirect user_dashboard =>
      ∃ view : dashboard, user_dashboard_view s db = (Ok (inr view), db)
  | redirect reviewer_dashboard =>
      ∃ view : dashboard, reviewer_dashboard_view s db = (Ok (inr view), db)
  | redirect login =>
      (∃ answer : response, user_dashboard_view s db = (Ok (inl answer), db))
      ∧ ∃ answer : response, reviewer_dashboard_view s db = (Ok (inl answer), db)
  | render_template _ => False
  end.
Proof.
  unfold index.
  destruct (logged_in_as "user" s) as [U|] eqn:HU; simpl.
  - rewrite (user_dashboard_view_run _ _ _ HU). by eexists.
  - destruct (logged_in_as "reviewer" s) as [V|] eqn:HV; simpl.
    + rewrite (reviewer_dashboard_view_run _ _ _ HV). by eexists.
    + unfold user_dashboard_view, reviewer_dashboard_view. rewrite HU, HV.
      split; by eexists.
Qed.

(** X20. After [logout] the session opens nothing: the home page sends it to the
    login page, and every operation requested with it is answered with the
    redirect to the login page and writes nothing. *)
Theorem logout_closes_every_route (s : session) (op : operation) (db : airtable) :
  session_of op = (logout s).1 →
  index (logout s).1 = ([], redirect login)
  ∧ handle op db = (Ok (sent_to_login op), db).
Proof.
  intros Hop. split; [done|].
  destruct op as [s' req|s' req recipe_id|s' recipe_id|s' req recipe_id];
    simpl in Hop; subst s'; reflexivity.
Qed.

(** X21. The last Assign wins. After a confirmed Assign of a recipe by a reviewer
    [V2], whatever the recipe's status and reviewer were, a Decide on that recipe
    by any other reviewer [V1] is refused with "This recipe is not assigned to
    you." and writes nothing. *)
Theorem last_assign_wins (s1 s2 : session) (req : request)
    (recipe_id V1 V2 : string) (db : airtable) :
  logged_in_as "reviewer" s1 = Some V1 →
  logged_in_as "reviewer" s2 = Some V2 →
  V1 ≠ V2 →
  (assign_recipe s2 recipe_id db).1 = Ok recipe_assigned →
  let after := (assign_recipe s2 recipe_id db).2 in
  review_recipe s1 req recipe_id after = (Ok not_assigned_to_you, after).
Proof.
  intros Hs1 Hs2 Hne Hok after. subst after.
  destruct (assign_recipe_succeeded _ _ _ _ Hs2 Hok) as (r & Hr & _).
  revert Hr Hok.
  destruct (query (get_recipes_by_reviewer V2 inProgress) db) as [|x l] eqn:Hq.
  - rewrite (assign_recipe_free _ _ _ _ Hs2 Hq).
    destruct (table_recipes db !! recipe_id) as [r0|] eqn:Hr0; [|done].
    simpl. rewrite lookup_insert_eq. intros ? _. simplify_eq.
    rewrite (review_recipe_cases _ _ _ _ _ Hs1). simpl.
    rewrite lookup_insert_eq. simpl. by rewrite bool_decide_true.
  - by rewrite (assign_recipe_refused _ _ _ _ Hs2) by (by rewrite Hq).
Qed.

(** X22. Only a Decide touches the Users table: after a Submit, a Resubmit or an
    Assign, confirmed or not, every user record, counters included, is what it
    was. *)
Theorem only_decide_touches_users (op : operation) (db : airtable) :
  (∀ (s : session) (req : request) (recipe_id : string), op ≠ Decide s req recipe_id) →
  table_users (handle op db).2 = table_users db.
Proof.
  intros Hop.
  destruct (logged_in_as (role_of op) (session_of op)) as [id|] eqn:Hs;
    [|by rewrite (handle_not_logged_in _ _ Hs)].
  destruct op as [s req|s req recipe_id|s recipe_id|s req recipe_id]; simpl in *.
  - rewrite add_recipe_cases, Hs.
    destruct (non_empty _); [done|]. case_bool_decide; [|done].
    rewrite create_recipe_run. by destruct (float_of_string _).
  - rewrite (edit_rejected_recipe_run _ _ _ _ _ Hs).
    destruct (table_recipes db !! recipe_id) as [r|]; [|done].
    case_bool_decide; [done|]. destruct (userID r); [done|].
    case_bool_decide; [done|]. by case_bool_decide.
  - destruct (query (get_recipes_by_reviewer id inProgress) db) as [|x l] eqn:Hq.
    + rewrite (assign_recipe_free _ _ _ _ Hs Hq).
      by destruct (table_recipes db !! recipe_id).
    + by rewrite (assign_recipe_refused _ _ _ _ Hs) by (by rewrite Hq).
  - by destruct (Hop s req recipe_id).
Qed.

(** * The further properties at concrete inputs *)

Import Cases.

(** X1 for a user session on the Assign route. *)
Lemma wrong_role_sent_to_login_witness :
  handle (Assign U1 "rec") submitted
  = (Ok (sent_to_login (Assign U1 "rec")), submitted).
Proof. apply (wrong_role_sent_to_login (Assign U1 "rec") submitted). reflexivity. Defined.

(** X3 for the reviewer V1 along a run through every kind of operation. *)
Lemma one_in_progress_along_every_run_witness :
  Forall (λ db', (length (query (get_recipes_by_reviewer "recV1" inProgress) db') ≤ 1)%nat)
         (states_along (map handle busy_day) db0).
Proof.
  apply (one_in_progress_along_every_run "recV1" busy_day db0). vm_compute. lia.
Defined.

(** X4 along the same run, from a store without recipes. *)
Lemma links_fit_along_every_run_witness :
  Forall links_fit (states_along (map handle busy_day) db0).
Proof.
  apply (links_fit_along_every_run busy_day db0).
  - repeat constructor; discriminate.
  - intros recipe_id r Hr. simpl in Hr. rewrite lookup_empty in Hr. discriminate.
Defined.

(** X8 at the approval of scenario A. *)
Lemma decide_writes_status_and_counts_once_witness :
  let after := (review_recipe V1 (decide_form "approve") "rec" assigned).2 in
  (review_recipe V1 (decide_form "approve") "rec" assigned).1 = Ok recipe_approved
  ∧ table_recipes after !! "rec" = Some (recipe_10 approved ["recV1"])
  ∧ (∀ other : string,
        other ≠ "rec" → table_recipes after !! other = table_recipes assigned !! other)
  ∧ (∃ u' : user,
        table_users after !! "recU1" = Some u'
        ∧ get_stat numApproved_field u' = get_stat numApproved_field ann + 1
        ∧ ∀ other : stat,
            other ≠ numApproved_field → get_stat other u' = get_stat other ann)
  ∧ (∀ other : string,
        other ≠ "recU1" → table_users after !! other = table_users assigned !! other).
Proof.
  apply (decide_writes_status_and_counts_once V1 (decide_form "approve") "rec"
           "recV1" "recU1" assigned (recipe_10 inProgress ["recV1"]) ann
           approved numApproved_field recipe_approved); reflexivity.
Defined.

(** X9 for the reviewer V2 on the recipe V1 holds, and for V1 on a recipe that
    does not exist. *)
Lemma decide_refusals_witness :
  ((hd EmptyString (reviewerID (recipe_10 inProgress ["recV1"])) ≠ "recV2" →
    review_recipe V2 (decide_form "approve") "rec" assigned
    = (Ok not_assigned_to_you, assigned))
   ∧ (hd EmptyString (reviewerID (recipe_10 inProgress ["recV1"])) = "recV2" →
      from_option truthy false (head (userID (recipe_10 inProgress ["recV1"]))) = false →
      review_recipe V2 (decide_form "approve") "rec" assigned
      = (Ok not_linked_to_user, assigned)))
  ∧ review_recipe V1 (decide_form "approve") "recNone" assigned
    = (Ok not_assigned_to_you, assigned).
Proof.
  split.
  - apply (decide_refusals V2 (decide_form "approve") "rec" "recV2" assigned).
    reflexivity.
  - apply (decide_refusals V1 (decide_form "approve") "recNone" "recV1" assigned).
    reflexivity.
Defined.

(** X10 on a recipe whose owner is not a user of the table. *)
Lemma decide_with_unknown_owner_witness :
  review_recipe V1 (decide_form "reject") "recY" orphaned
  = (Ok recipe_rejected,
     {| table_users := table_users orphaned;
        table_recipes :=
          <["recY" := apply_fields (status_fields rejected) orphan]>
            (table_recipes orphaned);
        writes := writes orphaned ++ [recipes_update "recY" (status_fields rejected)] |}).
Proof.
  apply (decide_with_unknown_owner V1 (decide_form "reject") "recY" "recV1" "recGone"
           orphaned orphan rejected numRejected_field recipe_rejected); reflexivity.
Defined.

(** X11 for V1 before any Assign of scenario D. *)
Lemma reviewer_dashboard_offers_what_assign_accepts_witness :
  ∃ (shown : option (string * recipe)) (listed : list (string * recipe)) (busy : bool),
    reviewer_dashboard_view V1 two_submitted
    = (Ok (inr (reviewer_dashboard_html shown listed busy)), two_submitted)
    ∧ (busy = true ↔
       ∃ (recipe_id : string) (r : recipe),
         table_recipes two_submitted !! recipe_id = Some r
         ∧ status r = inProgress ∧ "recV1" ∈ reviewerID r)
    ∧ (∀ (recipe_id : string) (r : recipe),
          shown = Some (recipe_id, r) →
          table_recipes two_submitted !! recipe_id = Some r
          ∧ status r = inProgress ∧ "recV1" ∈ reviewerID r)
    ∧ (busy = true →
       is_Some shown ∧ listed = []
       ∧ ∀ recipe_id : string,
           assign_recipe V1 recipe_id two_submitted
           = (Ok already_in_progress, two_submitted))
    ∧ (busy = false →
       shown = None
       ∧ NoDup listed
       ∧ (∀ (recipe_id : string) (r : recipe),
             (recipe_id, r) ∈ listed ↔
             table_recipes two_submitted !! recipe_id = Some r ∧ status r = unassigned)
       ∧ ∀ (recipe_id : string) (r : recipe),
           (recipe_id, r) ∈ listed →
           ∃ db' : airtable,
             assign_recipe V1 recipe_id two_submitted = (Ok recipe_assigned, db')
             ∧ reviewer_dashboard_view V1 db'
               = (Ok (inr (reviewer_dashboard_html
                             (Some (recipe_id, apply_fields (assign_fields "recV1") r))
                             [] true)), db')).
Proof.
  apply (reviewer_dashboard_offers_what_assign_accepts V1 "recV1" two_submitted).
  reflexivity.
Defined.

(** X12 for U1 after the rejection of scenario B. *)
Lemma user_dashboard_agrees_with_submit_witness :
  ∃ (listed : list (string * recipe)) (has_rejected : bool),
    user_dashboard_view U1 decided_rejected
    = (Ok (inr (user_dashboard_html listed has_rejected)), decided_rejected)
    ∧ NoDup listed
    ∧ (∀ (recipe_id : string) (r : recipe),
          (recipe_id, r) ∈ listed ↔
          table_recipes decided_rejected !! recipe_id = Some r
          ∧ status r = rejected ∧ "recU1" ∈ userID r)
    ∧ (has_rejected = true ↔
       ∃ (recipe_id : string) (r : recipe),
         table_recipes decided_rejected !! recipe_id = Some r
         ∧ status r = rejected ∧ "recU1" ∈ userID r)
    ∧ (has_rejected = true →
       ∀ req : request,
         add_recipe U1 req decided_rejected = (Ok has_rejected_recipe, decided_rejected))
    ∧ (has_rejected = false →
       ∀ req : request,
         method req = POST →
         (add_recipe U1 req decided_rejected).1 = Ok recipe_submitted)
    ∧ ∀ (recipe_id : string) (r : recipe),
        (recipe_id, r) ∈ listed →
        head (userID r) = Some "recU1" →
        ∀ req : request,
          method req = POST →
          (edit_rejected_recipe U1 req recipe_id decided_rejected).1
          = Ok recipe_resubmitted.
Proof.
  apply (user_dashboard_agrees_with_submit U1 "recU1" decided_rejected). reflexivity.
Defined.

(** X13 at the rejection of scenario B. *)
Lemma rejection_blocks_submit_witness :
  let after := (review_recipe V1 (decide_form "reject") "rec" assigned).2 in
  add_recipe U1 (submit_form "10") after = (Ok has_rejected_recipe, after).
Proof.
  apply (rejection_blocks_submit V1 U1 (decide_form "reject") (submit_form "10")
           "rec" "recV1" "recU1" assigned (recipe_10 inProgress ["recV1"]));
    reflexivity.
Defined.

(** X14 at the Resubmit of scenario C. *)
Lemma resubmit_unblocks_submit_witness :
  let after := (edit_rejected_recipe U1 edit "rec" decided_rejected).2 in
  (edit_rejected_recipe U1 edit "rec" decided_rejected).1 = Ok recipe_resubmitted
  ∧ query (get_recipes_by_user "recU1" rejected) after = []
  ∧ (add_recipe U1 (submit_form "10") after).1 = Ok recipe_submitted.
Proof.
  apply (resubmit_unblocks_submit U1 edit (submit_form "10") "rec" "recU1"
           decided_rejected (recipe_10 rejected ["recV1"])); reflexivity.
Defined.

(** X15 in scenario D: V1 decides the first recipe and takes the second. *)
Lemma decision_frees_reviewer_witness :
  let after := (review_recipe V1 (decide_form "approve") "rec" one_assigned).2 in
  query (get_recipes_by_reviewer "recV1" inProgress) after = []
  ∧ (assign_recipe V1 "rec0" after).1 = Ok recipe_assigned.
Proof.
  apply (decision_frees_reviewer V1 (decide_form "approve") "rec" "rec0" "recV1"
           "recU1" one_assigned (recipe_10 inProgress ["recV1"])
           approved numApproved_field recipe_approved);
    first [reflexivity | by eexists | vm_compute; lia].
Defined.

(** X16 at the Submit of scenario A. *)
Lemma submitted_recipe_is_listed_witness :
  let after := (add_recipe U1 (submit_form "10") db0).2 in
  ∃ (recipe_id : string) (r : recipe),
    table_recipes db0 !! recipe_id = None
    ∧ get_recipe_by_id recipe_id after = (Ok (Some (recipe_id, r)), after)
    ∧ userID r = ["recU1"] ∧ status r = unassigned ∧ reviewerID r = []
    ∧ (recipe_id, r) ∈ query get_unassigned_recipes after
    ∧ ∀ rec : string * recipe,
        rec ∈ query get_unassigned_recipes db0 →
        rec ∈ query get_unassigned_recipes after.
Proof.
  apply (submitted_recipe_is_listed U1 (submit_form "10") "recU1" 10%float db0);
    reflexivity.
Defined.

(** X17 for U1 and the rejected recipe of scenario B. *)
Lemma get_requests_write_nothing_witness :
  (add_recipe U1 get_form resubmitted).2 = resubmitted
  ∧ (edit_rejected_recipe U1 get_form "rec" resubmitted).2 = resubmitted.
Proof.
  apply (get_requests_write_nothing U1 get_form "rec" resubmitted). reflexivity.
Defined.

(** X18 on a rejected recipe without owner. *)
Lemma edit_rejected_recipe_without_owner_raises_witness :
  edit_rejected_recipe U1 edit "recX" ownerless = (Raise KeyError, ownerless).
Proof.
  apply (edit_rejected_recipe_without_owner_raises U1 edit "recX" "recU1" ownerless
           {| userID := []; status := rejected; price := 8%float;
              price_2x := 16%float; price_3x := 24%float; is_vegan := true;
              ingredients := []; reviewerID := ["recV1"] |}); reflexivity.
Defined.

(** X20 for a Submit with the session U1 has after logging out. *)
Lemma logout_closes_every_route_witness :
  index (logout U1).1 = ([], redirect login)
  ∧ handle (Submit (logout U1).1 (submit_form "10")) db0
    = (Ok (sent_to_login (Submit (logout U1).1 (submit_form "10"))), db0).
Proof.
  apply (logout_closes_every_route U1 (Submit (logout U1).1 (submit_form "10")) db0).
  reflexivity.
Defined.

(** X21 in scenario A: V2, who holds nothing, takes the recipe V1 has in progress. *)
Lemma last_assign_wins_witness :
  let after := (assign_recipe V2 "rec" assigned).2 in
  review_recipe V1 (decide_form "approve") "rec" after
  = (Ok not_assigned_to_you, after).
Proof.
  apply (last_assign_wins V1 V2 (decide_form "approve") "rec" "recV1" "recV2" assigned);
    first [reflexivity | discriminate].
Defined.

(** X22 at the Assign of scenario A. *)
Lemma only_decide_touches_users_witness :
  table_users (handle (Assign V1 "rec") submitted).2 = table_users submitted.
Proof.
  apply (only_decide_touches_users (Assign V1 "rec") submitted). discriminate.
Defined.
